(** * Transit-query backend (routes/transport.js): a shallow embedding

    The backend is JavaScript running on Node.  Provider payloads are
    untyped JSON, so the embedding keeps them untyped: a [json] value
    with JavaScript's own truthiness, [typeof] and strict-equality tests
    written out.  A read of a property of [null] raises, as in the host,
    and handlers run in a small error monad whose [Throw] reaches the
    handler's [catch] block.

    Numbers are IEEE doubles in the host.  They are represented here by
    the exact rational they denote (or an infinity, or NaN); the only
    arithmetic the modelled code performs on them is subtraction, the
    division by 60000 inside [Math.round], and comparison with 0, which
    are exact on the integral millisecond values that occur. *)

From Stdlib Require Import ZArith QArith Qround Qabs List String Ascii Bool Lia Lqa.
From Stdlib Require Import DecimalString.
From Stdlib Require Import Sorting.Sorted Sorting.Permutation.
Import ListNotations.
Open Scope Z_scope.
Set Warnings "-register-all".

(* ===================================================================== *)
(** ** Host values and primitives *)
(* ===================================================================== *)

Module JS.

(** A deserialised JSON value. *)
Inductive json : Type :=
| JNull
| JBool (b : bool)
| JNum (q : Q)
| JStr (s : string)
| JArr (items : list json)
| JObj (fields : list (string * json)).

(** A JavaScript value as the modelled code sees it: [None] is
    [undefined]. *)
Definition jsval : Type := option json.

(** A double: NaN, an infinity, or the rational it denotes. *)
Inductive number : Type :=
| NaN
| NegInf
| Fin (q : Q)
| PosInf.

(** Exceptions that reach a handler's [catch].  [EfaError d] is
    [new Error(`EFA API Error: ${d}`)], the only error whose message
    starts with that prefix; [AxiosError s m] carries
    [error.response?.status] and [error.response?.data?.message]. *)
Inductive exn : Type :=
| TypeError
| EfaError (detail : json)
| AxiosError (status : option Z) (message : jsval)
| OtherError.

Inductive result (A : Type) : Type :=
| Ok (a : A)
| Throw (e : exn).
Arguments Ok {A} a.
Arguments Throw {A} e.

Definition bind {A B} (m : result A) (k : A -> result B) : result B :=
  match m with
  | Ok a => k a
  | Throw e => Throw e
  end.

Declare Scope js_scope.
Delimit Scope js_scope with js.
Notation "x <- m ;; k" := (bind m (fun x => k))
  (at level 61, m at next level, right associativity) : js_scope.

(** ToBoolean. *)
Definition truthy_json (v : json) : bool :=
  match v with
  | JNull => false
  | JBool b => b
  | JNum q => negb (Qeq_bool q 0)
  | JStr s => negb (String.eqb s EmptyString)
  | JArr _ => true
  | JObj _ => true
  end.

Definition truthy (v : jsval) : bool :=
  match v with
  | None => false
  | Some j => truthy_json j
  end.

(** [a || b] on values. *)
Definition or_else (a : jsval) (b : json) : json :=
  match a with
  | Some j => if truthy_json j then j else b
  | None => b
  end.

(** [a || b] where [b] may be [undefined] too. *)
Definition or_val (a b : jsval) : jsval :=
  if truthy a then a else b.

Fixpoint lookup (k : string) (fields : list (string * json)) : jsval :=
  match fields with
  | [] => None
  | (k', v) :: rest => if String.eqb k k' then Some v else lookup k rest
  end.

(** [v.k] for the data property names the backend reads ([length] and
    indices are never read through this function).  Reading a property
    of [null] raises a TypeError; primitives and arrays have no such
    property. *)
Definition get (v : json) (k : string) : result jsval :=
  match v with
  | JNull => Throw TypeError
  | JObj fields => Ok (lookup k fields)
  | _ => Ok None
  end.

(** [v?.k]: short-circuits to [undefined] on [null] and [undefined]. *)
Definition get_opt (v : jsval) (k : string) : jsval :=
  match v with
  | Some (JObj fields) => lookup k fields
  | _ => None
  end.

(** ToString on a deserialised value raises exactly when the conversion
    meets an object that has an own [toString] property: the property
    holds data, which is not callable, and [valueOf] is either the
    inherited one, which returns the object, or data too, so that
    OrdinaryToPrimitive ends in a TypeError.  An array is converted by
    joining the conversions of its entries, [null] entries giving the
    empty text. *)
Fixpoint ToString_raises (v : json) : bool :=
  match v with
  | JObj fields =>
      match lookup "toString" fields with
      | Some _ => true
      | None => false
      end
  | JArr items => existsb ToString_raises items
  | _ => false
  end.

(** [new Error(`EFA API Error: ${detail}`)] for a truthy [detail]: the
    template literal is evaluated first, and when it raises the
    exception thrown is its TypeError. *)
Definition EFA_API_Error (detail : jsval) : exn :=
  match detail with
  | Some d => if ToString_raises d then TypeError else EfaError d
  | None => EfaError JNull
  end.

(** [v === 'text']. *)
Definition is_str (v : jsval) (text : string) : bool :=
  match v with
  | Some (JStr s) => String.eqb s text
  | _ => false
  end.

(** [v === n] for a number literal [n]. *)
Definition is_num (v : jsval) (n : Q) : bool :=
  match v with
  | Some (JNum q) => Qeq_bool q n
  | _ => false
  end.

(** A string-or-absent value when it is truthy: the text, which is then
    not empty. *)
Definition truthy_text (t : option string) : option string :=
  match t with
  | Some text => if String.eqb text EmptyString then None else Some text
  | None => None
  end.

(** [typeof v === 'string'] with the string it holds. *)
Definition as_string (v : jsval) : option string :=
  match v with
  | Some (JStr s) => Some s
  | _ => None
  end.

(** [Array.prototype.some] with a callback that may raise: stops at the
    first element on which the callback is true or raises. *)
Fixpoint some (p : json -> result bool) (l : list json) : result bool :=
  match l with
  | [] => Ok false
  | m :: rest =>
      match p m with
      | Ok true => Ok true
      | Ok false => some p rest
      | Throw e => Throw e
      end
  end.

(** [s.padStart(2, '0')] (ASCII text: lengths are counted in
    characters). *)
Definition padStart2 (s : string) : string :=
  match String.length s with
  | O => "00"
  | S O => String "0" s
  | _ => s
  end.

(** [s.split(sep)] for a one-character separator. *)
Fixpoint split (sep : ascii) (s : string) : list string :=
  match s with
  | EmptyString => [EmptyString]
  | String c rest =>
      if Ascii.eqb c sep then EmptyString :: split sep rest
      else match split sep rest with
           | [] => [String c EmptyString]
           | part :: parts => String c part :: parts
           end
  end.

(** [Math.round (n / d)] for integers [n] and [d > 0]: the nearest
    integer, halves rounded towards plus infinity.  The host rounds the
    quotient to a double first; a difference of time values divided by
    60000 is either a half or at least 1/60000 away from one, which for
    instants less than 250000 years apart exceeds the rounding error, so
    the result is the same. *)
Definition Math_round_div (n d : Z) : Z := (2 * n + d) / (2 * d).

(** *** parseFloat

    The longest prefix of the input, after leading white space, that is
    a StrDecimalLiteral; NaN when there is none.  Text is held as its
    UTF-8 bytes. *)

Definition is_digit (c : ascii) : bool :=
  let n := Z.of_nat (nat_of_ascii c) in (48 <=? n) && (n <=? 57).

Definition digit_value (c : ascii) : Z := Z.of_nat (nat_of_ascii c) - 48.

Definition is_white_space (c : ascii) : bool :=
  let n := Z.of_nat (nat_of_ascii c) in
  (n =? 32) || ((9 <=? n) && (n <=? 13)).

(** The white space and line terminators beyond ASCII that [trim],
    [parseFloat] and [parseInt] strip, by their UTF-8 bytes: U+00A0 in two bytes; U+1680, U+2000 to
    U+200A, U+2028, U+2029, U+202F, U+205F, U+3000 and U+FEFF in three. *)
Definition is_space2 (a b : ascii) : bool :=
  Ascii.eqb a "194" && Ascii.eqb b "160".

Definition is_space3 (a b c : ascii) : bool :=
  (Ascii.eqb a "225" && Ascii.eqb b "154" && Ascii.eqb c "128")
  || (Ascii.eqb a "226" && Ascii.eqb b "128"
      && (((128 <=? nat_of_ascii c) && (nat_of_ascii c <=? 138))%nat
          || Ascii.eqb c "168" || Ascii.eqb c "169" || Ascii.eqb c "175"))
  || (Ascii.eqb a "226" && Ascii.eqb b "129" && Ascii.eqb c "159")
  || (Ascii.eqb a "227" && Ascii.eqb b "128" && Ascii.eqb c "128")
  || (Ascii.eqb a "239" && Ascii.eqb b "187" && Ascii.eqb c "191").

Section Strip.

(** The two-byte and three-byte white space, in the order in which the
    bytes are met: as written when stripping from the start, reversed
    when stripping from the end. *)
Variable space2 : ascii -> ascii -> bool.
Variable space3 : ascii -> ascii -> ascii -> bool.

(** One white-space character off the front, when there is one. *)
Definition strip_space (l : list ascii) : option (list ascii) :=
  match l with
  | a :: r1 =>
      if is_white_space a then Some r1
      else
        match r1 with
        | b :: r2 =>
            if space2 a b then Some r2
            else
              match r2 with
              | c :: r3 => if space3 a b c then Some r3 else None
              | [] => None
              end
        | [] => None
        end
  | [] => None
  end.

(** All of them; [fuel] bounds the number of characters stripped. *)
Fixpoint strip_spaces (fuel : nat) (l : list ascii) : list ascii :=
  match fuel with
  | O => l
  | S fuel' =>
      match strip_space l with
      | Some rest => strip_spaces fuel' rest
      | None => l
      end
  end.

End Strip.

Definition trim_start (l : list ascii) : list ascii :=
  strip_spaces is_space2 is_space3 (List.length l) l.

Definition trim_end (l : list ascii) : list ascii :=
  rev (strip_spaces (fun b a => is_space2 a b) (fun c b a => is_space3 a b c)
         (List.length l) (rev l)).

(** The text without its leading white space and line terminators. *)
Definition skip_white_space (s : string) : string :=
  string_of_list_ascii (trim_start (list_ascii_of_string s)).

(** Reads a run of decimal digits: its value continuing [acc], the
    number of digits read, and the rest of the input. *)
Fixpoint read_digits (acc : Z) (count : Z) (s : string) : Z * Z * string :=
  match s with
  | String c rest =>
      if is_digit c then read_digits (10 * acc + digit_value c) (count + 1) rest
      else (acc, count, s)
  | EmptyString => (acc, count, s)
  end.

(** The exponent part, when one is well formed; 0 otherwise. *)
Definition read_exponent (s : string) : Z :=
  match s with
  | String c rest =>
      if Ascii.eqb c "e" || Ascii.eqb c "E" then
        let '(negative, rest') :=
          match rest with
          | String "-" r => (true, r)
          | String "+" r => (false, r)
          | _ => (false, rest)
          end in
        let '(e, count, _) := read_digits 0 0 rest' in
        if 0 <? count then (if negative then - e else e) else 0
      else 0
  | EmptyString => 0
  end.

Definition pow10 (e : Z) : Q :=
  if 0 <=? e then inject_Z (10 ^ e) else Qinv (inject_Z (10 ^ (- e))).

(** Magnitudes from [2^1024 - 2^970] on round to an infinity. *)
Definition overflow_threshold : Q := inject_Z (2 ^ 1024 - 2 ^ 970).

Definition to_double (q : Q) : number :=
  if Qle_bool overflow_threshold q then PosInf
  else if Qle_bool q (- overflow_threshold) then NegInf
  else Fin (Qred q).

Definition negate (n : number) : number :=
  match n with
  | NaN => NaN
  | NegInf => PosInf
  | PosInf => NegInf
  | Fin q => Fin (Qred (- q))
  end.

Definition starts_with_Infinity (s : string) : bool :=
  String.prefix "Infinity" s.

(** The unsigned part of a StrDecimalLiteral. *)
Definition read_unsigned (s : string) : number :=
  if starts_with_Infinity s then PosInf
  else
    let '(int_part, int_count, rest) := read_digits 0 0 s in
    if 0 <? int_count then
      match rest with
      | String "." rest' =>
          let '(mantissa, frac_count, rest'') := read_digits int_part 0 rest' in
          to_double (inject_Z mantissa * pow10 (read_exponent rest'' - frac_count))
      | _ => to_double (inject_Z int_part * pow10 (read_exponent rest))
      end
    else
      match rest with
      | String "." rest' =>
          let '(mantissa, frac_count, rest'') := read_digits 0 0 rest' in
          if 0 <? frac_count
          then to_double (inject_Z mantissa * pow10 (read_exponent rest'' - frac_count))
          else NaN
      | _ => NaN
      end.

Definition parseFloat (s : string) : number :=
  match skip_white_space s with
  | String "-" rest => negate (read_unsigned rest)
  | String "+" rest => read_unsigned rest
  | trimmed => read_unsigned trimmed
  end.

Definition isNaN (n : number) : bool :=
  match n with
  | NaN => true
  | _ => false
  end.

(** [a - b] on doubles (exact on the values that occur). *)
Definition sub (a b : number) : number :=
  match a, b with
  | NaN, _ | _, NaN => NaN
  | PosInf, PosInf | NegInf, NegInf => NaN
  | PosInf, _ | _, NegInf => PosInf
  | NegInf, _ | _, PosInf => NegInf
  | Fin x, Fin y => Fin (Qred (x - y))
  end.

(** *** Date

    A [Date] object holds a time value in milliseconds since the epoch,
    or NaN ("Invalid Date"). *)
Record Date : Type := mkDate { getTime : option Z }.

(** Days since the epoch of a proleptic Gregorian calendar date. *)
Definition days_from_civil (y m d : Z) : Z :=
  let y' := if m <=? 2 then y - 1 else y in
  let era := y' / 400 in
  let yoe := y' - era * 400 in
  let mp := (m + 9) mod 12 in
  let doy := (153 * mp + 2) / 5 + d - 1 in
  let doe := yoe * 365 + yoe / 4 - yoe / 100 + doy in
  era * 146097 + doe - 719468.

Definition is_leap (y : Z) : bool :=
  ((y mod 4 =? 0) && negb (y mod 100 =? 0)) || (y mod 400 =? 0).

Definition days_in_month (y m : Z) : Z :=
  if m =? 2 then (if is_leap y then 29 else 28)
  else if (m =? 4) || (m =? 6) || (m =? 9) || (m =? 11) then 30
  else 31.

Definition two_digits (a b : ascii) : option Z :=
  if is_digit a && is_digit b then Some (10 * digit_value a + digit_value b)
  else None.

Definition four_digits (a b c d : ascii) : option Z :=
  match two_digits a b, two_digits c d with
  | Some hi, Some lo => Some (100 * hi + lo)
  | _, _ => None
  end.

(** One host's [new Date(text)]: the ECMAScript date-time string format
    [YYYY-MM-DDTHH:mm:ss] without offset, read as local time in a server
    whose zone is UTC; any other text gives an Invalid Date.  The
    backend is stated and proved for an arbitrary host constructor; this
    one serves to run it on concrete payloads. *)
Definition Date_iso_local (text : string) : Date :=
  match list_ascii_of_string text with
  | [y1; y2; y3; y4; "-"; m1; m2; "-"; d1; d2; "T"; h1; h2; ":"; n1; n2; ":"; s1; s2]%char =>
      match four_digits y1 y2 y3 y4, two_digits m1 m2, two_digits d1 d2,
            two_digits h1 h2, two_digits n1 n2, two_digits s1 s2 with
      | Some y, Some m, Some d, Some h, Some n, Some sec =>
          if (1 <=? m) && (m <=? 12) && (1 <=? d) && (d <=? days_in_month y m)
             && ((h <=? 23) || ((h =? 24) && (n =? 0) && (sec =? 0)))
             && (n <=? 59) && (sec <=? 59)
          then mkDate (Some (days_from_civil y m d * 86400000
                             + h * 3600000 + n * 60000 + sec * 1000))
          else mkDate None
      | _, _, _, _, _, _ => mkDate None
      end
  | _ => mkDate None
  end.

End JS.

Import JS.
Local Open Scope string_scope.
Local Open Scope js_scope.

(* ===================================================================== *)
(** ** Cache helpers *)
(* ===================================================================== *)

(** The Redis client as the backend uses it: a readiness flag, the
    stored entries (value and [EX] seconds), and whether a read or a
    write sent over the connection is rejected. *)
Record RedisClient : Type := mkRedis {
  isReady : bool;
  get_fails : bool;
  set_fails : bool;
  entries : list (string * (string * Z))
}.

Fixpoint find_entry (key : string) (l : list (string * (string * Z)))
  : option string :=
  match l with
  | [] => None
  | (k, (v, _)) :: rest => if String.eqb key k then Some v else find_entry key rest
  end.

(** [redisClient.get(key)]: the stored string or [null], or a rejection. *)
Definition redis_get (c : RedisClient) (key : string) : result (option string) :=
  if get_fails c then Throw OtherError else Ok (find_entry key (entries c)).

(** [redisClient.set(key, value, { EX })]. *)
Definition redis_set (c : RedisClient) (key value : string) (ex : Z)
  : result RedisClient :=
  if set_fails c then Throw OtherError
  else Ok (mkRedis (isReady c) (get_fails c) (set_fails c)
             ((key, (value, ex)) :: entries c)).

Definition getFromCache (c : RedisClient) (key : string) : option string :=
  if negb (isReady c) then None
  else match redis_get c key with
       | Ok v => v
       | Throw _ => None
       end.

Definition setInCache (c : RedisClient) (key value : string)
  (expirationSeconds : Z) : RedisClient :=
  if negb (isReady c) then c
  else match redis_set c key value expirationSeconds with
       | Ok c' => c'
       | Throw _ => c
       end.

(* ===================================================================== *)
(** ** Helper functions of the transport routes *)
(* ===================================================================== *)

Definition is_null (v : json) : bool :=
  match v with
  | JNull => true
  | _ => false
  end.

(** An entry of a message array whose [m.text] is truthy and cannot be
    converted to text by [join]. *)
Definition unprintable_text (m : json) : bool :=
  match get_opt (Some m) "text" with
  | Some text => truthy_json text && ToString_raises text
  | None => false
  end.

(** [logEfaMessages]: what it writes to the console is not kept, only
    whether it returns.  In an array, [m.text] raises on a null entry,
    and [join] converts every truthy [m.text] to text, which raises on
    an object that has its own [toString]; for a single object, a truthy
    [text] that is not a string has no [trim] method. *)
Definition logEfaMessages (messageData : jsval) : result unit :=
  if negb (truthy messageData) then Ok tt
  else
    match messageData with
    | Some (JArr items) =>
        if existsb is_null items || existsb unprintable_text items
        then Throw TypeError else Ok tt
    | Some (JObj fields) =>
        match lookup "text" fields with
        | Some (JStr _) => Ok tt
        | Some text => if truthy_json text then Throw TypeError else Ok tt
        | None => Ok tt
        end
    | _ => Ok tt
    end.

(** The time value of a possibly absent Date: [None] when the value
    is [null] or the Date is invalid. *)
Definition instant (d : option Date) : option Z :=
  match d with
  | Some date => getTime date
  | None => None
  end.

Section Helpers.

(** The host's [new Date(dateString)]. *)
Variable new_Date : string -> Date.

(** The text handed to the Date constructor. *)
Definition dateString (year month day hour minute : string) : string :=
  year ++ "-" ++ padStart2 month ++ "-" ++ padStart2 day
       ++ "T" ++ padStart2 hour ++ ":" ++ padStart2 minute ++ ":00".

(** [parseEfaDateTime]: [None] is [null].  Once the guard has passed
    nothing in the [try] block can raise. *)
Definition parseEfaDateTime (efaDateTime : jsval) : option Date :=
  if negb (truthy efaDateTime) then None
  else
    match as_string (get_opt efaDateTime "year"),
          as_string (get_opt efaDateTime "month"),
          as_string (get_opt efaDateTime "day"),
          as_string (get_opt efaDateTime "hour"),
          as_string (get_opt efaDateTime "minute") with
    | Some year, Some month, Some day, Some hour, Some minute =>
        let parsedDate := new_Date (dateString year month day hour minute) in
        match getTime parsedDate with
        | None => None
        | Some _ => Some parsedDate
        end
    | _, _, _, _, _ => None
    end.

(** [calculateDurationMinutes]: arguments are [null] or a Date. *)
Definition calculateDurationMinutes (startDate endDate : option Date)
  : option Z :=
  match startDate, endDate with
  | Some s, Some e =>
      match getTime s, getTime e with
      | Some ts, Some te =>
          let diffMillis := te - ts in
          if (diffMillis <? 0)%Z then None
          else Some (Math_round_div diffMillis (1000 * 60))
      | _, _ => None
      end
  | _, _ => None
  end.

(** [extractCoords]: [Ok None] is [null], [Ok (Some (lat, lon))] the
    two-element array.  A truthy [coords] that is not a string has no
    [split] method. *)
Definition extractCoords (pointRef : jsval) : result (option (number * number)) :=
  let coords := get_opt pointRef "coords" in
  if negb (truthy coords) then Ok None
  else
    match coords with
    | Some (JStr text) =>
        match split "," text with
        | [part0; part1] =>
            let lon := parseFloat part0 in
            let lat := parseFloat part1 in
            if negb (isNaN lat) && negb (isNaN lon) then Ok (Some (lat, lon))
            else Ok None
        | _ => Ok None
        end
    | _ => Throw TypeError
    end.

(* ===================================================================== *)
(** ** Shape normalisation at the payload boundary *)
(* ===================================================================== *)

(** [Array.isArray(x) ? x : [x]], under the guard [if (x)]. *)
Definition array_or_single (x : json) : list json :=
  match x with
  | JArr items => items
  | _ => [x]
  end.

(** The trips the route handler iterates over: the [else] branch of
    [if (efaData.trips)] processes none. *)
Definition tripsArray (trips : jsval) : list json :=
  match trips with
  | Some x => if truthy_json x then array_or_single x else []
  | None => []
  end.

(** [Array.isArray(trip.legs) ? trip.legs : (trip.legs ? [trip.legs] : [])]. *)
Definition legsArray (legs : jsval) : list json :=
  match legs with
  | Some (JArr items) => items
  | Some x => if truthy_json x then [x] else []
  | None => []
  end.

(** The departures the departures handler iterates over. *)
Definition departureListArray (departureList : jsval) : list json :=
  match departureList with
  | Some x => if truthy_json x then array_or_single x else []
  | None => []
  end.

End Helpers.

(* ===================================================================== *)
(** ** Query orchestration shared by the handlers *)
(* ===================================================================== *)

(** What a handler sends: [res.json(data)] for a fresh result,
    [res.json(JSON.parse(cachedData))] for a cache hit, or
    [res.status(code).json({ success: false, message, errorCode })]. *)
Inductive response (A : Type) : Type :=
| Fresh (data : A)
| FromCache (data : json)
| Fail (status : Z) (errorCode : option string) (message : json).
Arguments Fresh {A} data.
Arguments FromCache {A} data.
Arguments Fail {A} status errorCode message.

(** How the [try] body ends when it does not raise: an early
    [return res.status(...)] or the result that is cached and sent. *)
Inductive verdict (A : Type) : Type :=
| Reject (status : Z) (errorCode : option string) (message : json)
| Proceed (data : A).
Arguments Reject {A} status errorCode message.
Arguments Proceed {A} data.

Section Orchestrator.

Variable A : Type.
(** The host's [JSON.stringify] on results and [JSON.parse] on cached
    text. *)
Variable JSON_stringify : A -> string.
Variable JSON_parse : string -> result json.

(** [if (cachedData)]: a stored empty string counts as a miss. *)
Definition cache_hit (cachedData : option string) : option string :=
  truthy_text cachedData.

(** The body every handler shares after input validation: cache
    lookup, provider fetch, processing, cache store, reply.  [fetch] is
    what [axios.get] resolves or rejects with when it is called. *)
Definition query (process : json -> result (verdict A))
  (on_error : exn -> response A) (ttl : Z)
  (c : RedisClient) (cacheKey : string) (fetch : result json)
  : response A * RedisClient :=
  match cache_hit (getFromCache c cacheKey) with
  | Some cachedData =>
      match JSON_parse cachedData with
      | Ok data => (FromCache data, c)
      | Throw e => (on_error e, c)
      end
  | None =>
      match bind fetch process with
      | Ok (Proceed data) =>
          (Fresh data, setInCache c cacheKey (JSON_stringify data) ttl)
      | Ok (Reject status errorCode message) => (Fail status errorCode message, c)
      | Throw e => (on_error e, c)
      end
  end.

(** The same query with no cache in front of the provider. *)
Definition query_uncached (process : json -> result (verdict A))
  (on_error : exn -> response A) (fetch : result json) : response A :=
  match bind fetch process with
  | Ok (Proceed data) => Fresh data
  | Ok (Reject status errorCode message) => Fail status errorCode message
  | Throw e => on_error e
  end.

Definition isEfaApiError (e : exn) : bool :=
  match e with
  | EfaError _ => true
  | _ => false
  end.

Definition response_status (e : exn) : option Z :=
  match e with
  | AxiosError status _ => status
  | _ => None
  end.

Definition response_message (e : exn) : jsval :=
  match e with
  | AxiosError _ message => message
  | _ => None
  end.

(** [status || 500]. *)
Definition status_or_500 (status : option Z) : Z :=
  match status with
  | Some code => if (code =? 0)%Z then 500 else code
  | None => 500
  end.

End Orchestrator.

Arguments query {A} JSON_stringify JSON_parse process on_error ttl c cacheKey fetch.
Arguments query_uncached {A} process on_error fetch.
Arguments isEfaApiError e : simpl nomatch.

(* ===================================================================== *)
(** ** Route search ([/route]) *)
(* ===================================================================== *)

(** One segment of a route.  The presentational fields (names, line,
    direction, operator, formatted clock times) are plain fallback
    chains over optional reads and are not carried here. *)
Record segment : Type := mkSegment {
  isWalk : bool;
  fromCoords : option (number * number);
  toCoords : option (number * number);
  departureDateTime : option Date;
  arrivalDateTime : option Date;
  segmentDuration : json
}.

Record route : Type := mkRoute {
  duration : json;
  interchanges : json;
  segments : list segment
}.

Definition num_or_null (n : option Z) : json :=
  match n with
  | Some z => JNum (inject_Z z)
  | None => JNull
  end.

(** [leg.points?.[0]] and [leg.points?.[leg.points.length - 1]] for the
    array the provider sends; a missing or non-array [points] yields
    [undefined]. *)
Definition first_point (points : jsval) : jsval :=
  match points with
  | Some (JArr items) => nth_error items 0
  | _ => None
  end.

Definition last_point (points : jsval) : jsval :=
  match points with
  | Some (JArr items) => nth_error items (List.length items - 1)
  | _ => None
  end.

Section Route.

Variable new_Date : string -> Date.

(** The running values of one trip's [forEach] over its legs. *)
Definition totals : Type := (Z * option Date)%type.

(** Lines 243-257 and 292: what one leg with the given departure and
    arrival instants does to [calculatedTotalDuration] and
    [previousLegArrivalDateTime]. *)
Definition add_leg (acc : totals) (times : option Date * option Date) : totals :=
  let '(calculatedTotalDuration, previousLegArrivalDateTime) := acc in
  let '(departure, arrival) := times in
  let segmentDuration := calculateDurationMinutes departure arrival in
  let waitingTime :=
    match previousLegArrivalDateTime, departure with
    | Some _, Some _ => calculateDurationMinutes previousLegArrivalDateTime departure
    | _, _ => None
    end in
  let total :=
    match segmentDuration with
    | Some travel =>
        match waitingTime with
        | Some wait =>
            if (0 <? wait)%Z then (calculatedTotalDuration + travel + wait)%Z
            else (calculatedTotalDuration + travel)%Z
        | None => (calculatedTotalDuration + travel)%Z
        end
    | None => calculatedTotalDuration
    end in
  (total, arrival).

Definition calculatedTotalDuration (legs : list (option Date * option Date)) : Z :=
  fst (fold_left add_leg legs (0%Z, None)).

(** Lines 225 and 296-299: the [duration] the route ends up with. *)
Definition route_duration (trip_duration : jsval) (total : Z) : json :=
  if (0 <? total)%Z then JNum (inject_Z total)
  else or_else trip_duration JNull.

(** The segment pushed for a leg. *)
Definition build_segment (leg : json) : result segment :=
  points <- get leg "points" ;;
  let originPoint := first_point points in
  let destinationPoint := last_point points in
  let departure := parseEfaDateTime new_Date (get_opt originPoint "dateTime") in
  let arrival := parseEfaDateTime new_Date (get_opt destinationPoint "dateTime") in
  let calculated := num_or_null (calculateDurationMinutes departure arrival) in
  let walk := is_str (get_opt (Some leg) "type") "WALK"
              || is_str (get_opt (get_opt (Some leg) "mode") "type") "FOOTPATH" in
  let walkDuration := or_else (get_opt (Some leg) "duration") calculated in
  from <- extractCoords (get_opt originPoint "ref") ;;
  to <- extractCoords (get_opt destinationPoint "ref") ;;
  Ok (mkSegment walk from to departure arrival
        (if walk then walkDuration else calculated)).

Fixpoint process_legs (legs : list json) (acc : totals) (done : list segment)
  : result (totals * list segment) :=
  match legs with
  | [] => Ok (acc, done)
  | leg :: rest =>
      seg <- build_segment leg ;;
      process_legs rest
        (add_leg acc (departureDateTime seg, arrivalDateTime seg))
        (done ++ [seg])%list
  end.

(** One iteration of [tripsArray.forEach]: the route, when it has at
    least one segment. *)
Definition process_trip (trip : json) : result (option route) :=
  trip_duration <- get trip "duration" ;;
  trip_interchanges <- get trip "interchanges" ;;
  legs <- get trip "legs" ;;
  out <- process_legs (legsArray legs) (0%Z, None) [] ;;
  let '((total, _), segs) := out in
  match segs with
  | [] => Ok None
  | _ => Ok (Some (mkRoute (route_duration trip_duration total)
                     (or_else trip_interchanges (JNum 0)) segs))
  end.

Fixpoint process_trips (trips : list json) : result (list route) :=
  match trips with
  | [] => Ok []
  | trip :: rest =>
      r <- process_trip trip ;;
      rs <- process_trips rest ;;
      Ok (match r with
          | Some x => x :: rs
          | None => rs
          end)
  end.

(** [m => m.name === 'code' && m.value === '-8011']. *)
Definition is_ambiguous_code (m : json) : result bool :=
  name <- get m "name" ;;
  if is_str name "code" then
    value <- get m "value" ;;
    Ok (is_str value "-8011")
  else Ok false.

(** [Array.isArray(msg) && msg.some(...)]. *)
Definition ambiguous (msg : jsval) : result bool :=
  match msg with
  | Some (JArr items) => some is_ambiguous_code items
  | _ => Ok false
  end.

Definition AMBIGUOUS_LOCATION : verdict (list route) :=
  Reject 400 (Some "AMBIGUOUS_LOCATION") (JStr "Start- oder Zielort ist mehrdeutig.").

(** The [try] body of the route handler from the provider's payload on
    (lines 191-310). *)
Definition route_process (efaData : json) : result (verdict (list route)) :=
  itdMessageList <- get efaData "itdMessageList" ;;
  _ <- logEfaMessages itdMessageList ;;
  let error := get_opt (Some efaData) "error" in
  if truthy error then Throw (EFA_API_Error error)
  else
    let originMsg := get_opt (get_opt (Some efaData) "origin") "message" in
    let destMsg := get_opt (get_opt (Some efaData) "destination") "message" in
    originAmbiguous <- ambiguous originMsg ;;
    destAmbiguous <- ambiguous destMsg ;;
    let trips := get_opt (Some efaData) "trips" in
    if (originAmbiguous || destAmbiguous) && negb (truthy trips)
    then Ok AMBIGUOUS_LOCATION
    else
      routes <- process_trips (tripsArray trips) ;;
      Ok (Proceed routes).

(** The [catch] block of the route handler. *)
Definition route_catch (e : exn) : response (list route) :=
  let statusCode :=
    match response_status e with
    | Some 400%Z => 400%Z
    | status => if isEfaApiError e then 502%Z else status_or_500 status
    end in
  Fail statusCode None
    (or_else (response_message e)
       (JStr (if isEfaApiError e
              then "Fehler bei der Kommunikation mit dem Fahrplandienst."
              else "Route konnte nicht berechnet werden."))).

Section RouteHandler.

Variable JSON_stringify : list route -> string.
Variable JSON_parse : string -> result json.

(** [router.get('/route', ...)]: [from] and [to] are the query
    parameters, absent or text. *)
Definition route_handler (c : RedisClient) (from to : option string)
  (fetch : result json) : response (list route) * RedisClient :=
  match truthy_text from, truthy_text to with
  | Some f, Some t =>
      query JSON_stringify JSON_parse route_process route_catch 300 c
        ("transport:route:" ++ f ++ ":" ++ t) fetch
  | _, _ => (Fail 400 None (JStr "Start- und Zielort benötigt."), c)
  end.

End RouteHandler.

End Route.

(* ===================================================================== *)
(** ** Proximity search ([/stations/nearby]) *)
(* ===================================================================== *)

(** A station of the proximity search; [distance] is
    [point.ref?.distance] as the provider sent it.  The identifier,
    name, locality and type fallback chains are not carried here. *)
Record station : Type := mkStation {
  coords : option (number * number);
  distance : jsval
}.

Section Nearby.

(** The host's ToNumber on values that are not numbers. *)
Variable ToNumber_other : json -> number.

Definition ToNumber (v : json) : number :=
  match v with
  | JNum q => Fin q
  | _ => ToNumber_other v
  end.

(** [x.distance || Infinity], as the number the subtraction sees. *)
Definition distance_or_Infinity (d : jsval) : number :=
  match d with
  | Some v => if truthy_json v then ToNumber v else PosInf
  | None => PosInf
  end.

(** The comparator [(a, b) => (a.distance || Infinity) - (b.distance || Infinity)]. *)
Definition compare_distance (a b : station) : number :=
  sub (distance_or_Infinity (distance a)) (distance_or_Infinity (distance b)).

(** A comparator result that orders [b] before [a]: a positive number. *)
Definition positive (n : number) : bool :=
  match n with
  | PosInf => true
  | Fin q => negb (Qle_bool q 0)
  | _ => false
  end.

(** [Array.prototype.sort] is stable; with a consistent comparator its
    result is the one stable sorted arrangement, which insertion from
    the right computes. *)
Fixpoint insert_sorted {T} (cmp : T -> T -> number) (x : T) (l : list T) : list T :=
  match l with
  | [] => [x]
  | y :: rest =>
      if positive (cmp x y) then y :: insert_sorted cmp x rest
      else x :: y :: rest
  end.

Definition sort {T} (cmp : T -> T -> number) (l : list T) : list T :=
  fold_right (insert_sorted cmp) [] l.

(** Lines 460-463. *)
Definition sort_by_distance (stations : list station) : list station :=
  match stations with
  | first :: _ =>
      match distance first with
      | Some _ => sort compare_distance stations
      | None => stations
      end
  | [] => stations
  end.

(** The points the stop finder returned, as a sequence. *)
Definition pointsArray (pointsData : json) : list json :=
  match pointsData with
  | JArr items => items
  | JObj fields =>
      match lookup "point" fields with
      | Some point =>
          if truthy_json point then array_or_single point else [pointsData]
      | None => [pointsData]
      end
  | _ => []
  end.

(** Line 450: the identifier is [point.ref?.id], else
    [point.stateless], else a template literal over the name and the
    locality, evaluated only then; the literal raises when one of the two
    cannot be converted to text. *)
Definition generated_id_raises (point : json) (ref : jsval) : bool :=
  negb (truthy (get_opt ref "id"))
  && negb (truthy (get_opt (Some point) "stateless"))
  && (match get_opt (Some point) "name" with
      | Some name => ToString_raises name
      | None => false
      end
      || match or_val (get_opt (Some point) "locality") (get_opt ref "place") with
         | Some locality => ToString_raises locality
         | None => false
         end).

Definition build_station (point : json) : result station :=
  ref <- get point "ref" ;;
  c <- extractCoords ref ;;
  if generated_id_raises point ref then Throw TypeError
  else Ok (mkStation c (get_opt ref "distance")).

Fixpoint build_stations (points : list json) : result (list station) :=
  match points with
  | [] => Ok []
  | point :: rest =>
      st <- build_station point ;;
      sts <- build_stations rest ;;
      Ok (st :: sts)
  end.

(** The [try] body of the proximity handler from the payload on. *)
Definition nearby_process (efaData : json) : result (verdict (list station)) :=
  stopFinder <- get efaData "stopFinder" ;;
  _ <- logEfaMessages (get_opt stopFinder "message") ;;
  let error := get_opt (Some efaData) "error" in
  if truthy error then Throw (EFA_API_Error error)
  else
    let pointsData := get_opt (get_opt (Some efaData) "stopFinder") "points" in
    match pointsData with
    | Some data =>
        if truthy_json data then
          stations <- build_stations (pointsArray data) ;;
          Ok (Proceed (sort_by_distance stations))
        else Ok (Proceed [])
    | None => Ok (Proceed [])
    end.

End Nearby.

(* ===================================================================== *)
(** ** Departures ([/departures]) *)
(* ===================================================================== *)

(** A departure record; the line, direction, platform, type and
    formatted clock times are not carried here. *)
Record departure : Type := mkDeparture {
  scheduledDateTime : option Date;
  realDateTime : option Date;
  delay : json
}.

Section Departures.

Variable new_Date : string -> Date.

(** Lines 524-531: [dep_delay] is [dep.delay]. *)
Definition delayMinutes (dep_delay : jsval) (scheduled real : option Date) : json :=
  let provided := or_else dep_delay (JNum 0) in
  match real, scheduled with
  | Some _, Some _ =>
      if is_num (Some provided) 0 then
        match calculateDurationMinutes scheduled real with
        | Some calculatedDelay =>
            if (0 <? calculatedDelay)%Z then JNum (inject_Z calculatedDelay)
            else provided
        | None => provided
        end
      else provided
  | _, _ => provided
  end.

Definition build_departure (dep : json) : result departure :=
  dateTime <- get dep "dateTime" ;;
  let scheduled := parseEfaDateTime new_Date dateTime in
  let real := parseEfaDateTime new_Date (get_opt (Some dep) "realDateTime") in
  Ok (mkDeparture scheduled real
        (delayMinutes (get_opt (Some dep) "delay") scheduled real)).

Fixpoint build_departures (deps : list json) : result (list departure) :=
  match deps with
  | [] => Ok []
  | dep :: rest =>
      d <- build_departure dep ;;
      ds <- build_departures rest ;;
      Ok (d :: ds)
  end.

(** [m => m.name === 'code' && (m.value === '-3010' || m.value === '-3011')]. *)
Definition is_stop_unknown_code (m : json) : result bool :=
  name <- get m "name" ;;
  if is_str name "code" then
    value <- get m "value" ;;
    Ok (is_str value "-3010" || is_str value "-3011")
  else Ok false.

(** Lines 500-506. *)
Definition stopNotFound (dmMessage : jsval) : result bool :=
  match dmMessage with
  | Some (JArr items) => some is_stop_unknown_code items
  | Some (JObj fields) =>
      Ok (is_num (lookup "code" fields) (-3010) || is_num (lookup "code" fields) (-3011))
  | _ => Ok false
  end.

Definition STOP_NOT_FOUND : verdict (list departure) :=
  Reject 404 None (JStr "Haltestelle nicht gefunden.").

(** The [try] body of the departures handler from the provider's
    payload on (lines 496-547). *)
Definition departures_process (efaData : json) : result (verdict (list departure)) :=
  message <- get efaData "message" ;;
  let departureMonitor := get_opt (Some efaData) "departureMonitor" in
  _ <- logEfaMessages (or_val message (get_opt departureMonitor "message")) ;;
  notFound <- stopNotFound (get_opt departureMonitor "message") ;;
  if notFound then Ok STOP_NOT_FOUND
  else
    let error := get_opt (Some efaData) "error" in
    if truthy error then Throw (EFA_API_Error error)
    else
      departures <- build_departures
                      (departureListArray (get_opt (Some efaData) "departureList")) ;;
      Ok (Proceed departures).

(** The [catch] block of the departures handler.  Its first line only
    matters after a 404 has been sent, and the 404 is sent by a
    [return]. *)
Definition departures_catch (e : exn) : response (list departure) :=
  Fail (if isEfaApiError e then 502%Z else status_or_500 (response_status e)) None
    (or_else (response_message e)
       (JStr (if isEfaApiError e
              then "Fehler bei Kommunikation mit EFA."
              else "Abfahrtszeiten konnten nicht abgerufen werden."))).

(** What the departures handler replies once the provider has answered
    or failed. *)
Definition departures_reply (fetch : result json) : response (list departure) :=
  query_uncached departures_process departures_catch fetch.

End Departures.

(* ===================================================================== *)
(** ** Vocabulary of the properties and sample payloads *)
(* ===================================================================== *)

(** *** Temporal fragments *)

(** A fragment whose five fields are the given texts. *)
Definition fragment (year month day hour minute : string) : jsval :=
  Some (JObj [("year", JStr year); ("month", JStr month); ("day", JStr day);
              ("hour", JStr hour); ("minute", JStr minute)]).

(** *** Status codes in message lists *)

(** A message entry [{ name: "code", value: code }] (other fields are
    allowed). *)
Definition code_entry (code : string) (m : json) : Prop :=
  exists fields,
    m = JObj fields /\
    lookup "name" fields = Some (JStr "code") /\
    lookup "value" fields = Some (JStr code).

(** The diagnostics logger returns normally on the value: it is falsy,
    a text, a list with no null entry, or an object whose [text], when
    truthy, is a string. *)
Definition loggable (messageData : jsval) : Prop :=
  logEfaMessages messageData = Ok tt.

(** A message list: an array with no null entry. *)
Definition message_list (msg : jsval) (items : list json) : Prop :=
  msg = Some (JArr items) /\ ~ In JNull items.

(** A payload with a stop-unknown code and a technical error. *)
Definition payload_unknown_stop_with_error : list (string * json) :=
  [("error", JStr "internal error");
   ("departureMonitor",
    JObj [("message", JArr [JObj [("name", JStr "error"); ("value", JStr "")];
                            JObj [("name", JStr "code"); ("value", JStr "-3011")]])])].

(** What the route handler replies once the provider has answered or
    failed. *)
Definition route_reply (new_Date : string -> Date) (fetch : result json)
  : response (list route) :=
  query_uncached (route_process new_Date) route_catch fetch.





(** An ambiguous origin, no trips, and a technical error. *)
Definition payload_ambiguous_with_error : list (string * json) :=
  [("error", JStr "internal error");
   ("origin",
    JObj [("message", JArr [JObj [("name", JStr "code"); ("value", JStr "-8011")]])])].

(** An ambiguous origin, an unambiguous destination, no trips. *)
Definition payload_ambiguous_origin : list (string * json) :=
  [("origin",
    JObj [("message", JArr [JObj [("name", JStr "code"); ("value", JStr "-8011")]])]);
   ("destination",
    JObj [("message", JArr [JObj [("name", JStr "code"); ("value", JStr "-8020")]])])].

(** *** Legs and their durations *)

(** A leg as the accumulation sees it: its departure and arrival
    instants. *)
Definition leg_times : Type := (option Date * option Date)%type.

Definition segment_times (seg : segment) : leg_times :=
  (departureDateTime seg, arrivalDateTime seg).

(** The travel time of a leg and the waiting time before it, given the
    arrival of the leg before. *)
Definition travel_time (leg : leg_times) : option Z :=
  calculateDurationMinutes (fst leg) (snd leg).

Definition waiting_time (previous_arrival : option Date) (leg : leg_times)
  : option Z :=
  calculateDurationMinutes previous_arrival (fst leg).

Definition if_available (minutes : option Z) : Z :=
  match minutes with
  | Some m => m
  | None => 0%Z
  end.

Definition if_positive (minutes : option Z) : Z :=
  match minutes with
  | Some m => if (0 <? m)%Z then m else 0%Z
  | None => 0%Z
  end.

(** The sum of the travel times that are available. *)
Fixpoint sum_travel (legs : list leg_times) : Z :=
  match legs with
  | [] => 0%Z
  | leg :: rest => (if_available (travel_time leg) + sum_travel rest)%Z
  end.

(** The sum, over adjacent legs, of the waiting times that are available
    and strictly positive. *)
Fixpoint sum_waits (previous_arrival : option Date) (legs : list leg_times) : Z :=
  match legs with
  | [] => 0%Z
  | leg :: rest =>
      (if_positive (waiting_time previous_arrival leg) + sum_waits (snd leg) rest)%Z
  end.

(** The same sum, counting a wait only when the travel time of the leg
    that follows it is available. *)
Fixpoint counted_waits (previous_arrival : option Date) (legs : list leg_times) : Z :=
  match legs with
  | [] => 0%Z
  | leg :: rest =>
      ((match travel_time leg with
        | Some _ => if_positive (waiting_time previous_arrival leg)
        | None => 0
        end) + counted_waits (snd leg) rest)%Z
  end.

(** C1 as the specification states it. *)
Definition total_duration_claim : Prop :=
  forall legs : list leg_times,
    calculatedTotalDuration legs = (sum_travel legs + sum_waits None legs)%Z.

Definition at_ms (t : Z) : option Date := Some (mkDate (Some t)).

(** Travel 10 and 15 minutes with a 5-minute gap, and with none. *)
Definition legs_gap_5 : list leg_times :=
  [(at_ms 0, at_ms 600000); (at_ms 900000, at_ms 1800000)].
Definition legs_gap_0 : list leg_times :=
  [(at_ms 0, at_ms 600000); (at_ms 600000, at_ms 1500000)].

(** A 10-minute leg, then a leg that leaves 5 minutes later and whose
    arrival is unknown. *)
Definition legs_second_arrival_unknown : list leg_times :=
  [(at_ms 0, at_ms 600000); (at_ms 900000, None)].

(** A point of a leg, on 5 January 2024 at the given clock time. *)
Definition point_at (hour minute : string) : json :=
  JObj [("name", JStr "Bozen");
        ("dateTime", JObj [("year", JStr "2024"); ("month", JStr "1");
                           ("day", JStr "5"); ("hour", JStr hour);
                           ("minute", JStr minute)])].

(** The trip of [legs_gap_5] as the provider sends it. *)
Definition trip_gap_5 : json :=
  JObj [("duration", JStr "00:30");
        ("legs", JArr [JObj [("points", JArr [point_at "10" "0"; point_at "10" "10"])];
                       JObj [("points", JArr [point_at "10" "15"; point_at "10" "30"])]])].

(** A 10-minute leg, then a leg that leaves 5 minutes later and whose
    last point has no time. *)
Definition trip_second_arrival_unknown : json :=
  JObj [("duration", JStr "00:30");
        ("legs", JArr [JObj [("points", JArr [point_at "10" "0"; point_at "10" "10"])];
                       JObj [("points", JArr [point_at "10" "15";
                                              JObj [("name", JStr "Meran")]])]])].

Definition route_gap_5 : route :=
  Eval vm_compute in
    match process_trip Date_iso_local trip_gap_5 with
    | Ok (Some r) => r
    | _ => mkRoute JNull JNull []
    end.

(** *** Coordinates, delays, distances *)

(** The character occurs in the text. *)
Fixpoint has_char (c : ascii) (s : string) : bool :=
  match s with
  | EmptyString => false
  | String c' rest => Ascii.eqb c' c || has_char c rest
  end.

(** A point reference whose [coords] is the given text. *)
Definition coords_ref (text : string) : jsval :=
  Some (JObj [("coords", JStr text)]).

(** Latitude and longitude are finite and within the geographic
    bounds. *)
Definition in_range (lat lon : number) : Prop :=
  match lat, lon with
  | Fin la, Fin lo => (-90 <= la /\ la <= 90 /\ -180 <= lo /\ lo <= 180)%Q
  | _, _ => False
  end.

(** C3 as the specification states it. *)
Definition geo_claim : Prop :=
  forall (text : string) (lat lon : number),
    extractCoords (coords_ref text) = Ok (Some (lat, lon)) <->
    exists part0 part1,
      split "," text = [part0; part1] /\
      parseFloat part0 = lon /\ parseFloat part1 = lat /\
      in_range lat lon.

(** A delay that is a number of minutes, not negative. *)
Definition nonneg_minutes (v : json) : Prop :=
  exists q : Q, v = JNum q /\ (0 <= q)%Q.

(** C4 as the specification states it. *)
Definition delay_claim : Prop :=
  forall (new_Date : string -> Date) (dep : json) (d : departure),
    build_departure new_Date dep = Ok d -> nonneg_minutes (delay d).

(** A departure the provider reports as two minutes early. *)
Definition departure_early : json :=
  JObj [("dateTime", JObj [("year", JStr "2024"); ("month", JStr "1");
                           ("day", JStr "5"); ("hour", JStr "10");
                           ("minute", JStr "30")]);
        ("delay", JNum (-2))].

(** A departure with no delay figure, scheduled 10:30 and expected
    10:34. *)
Definition departure_late : json :=
  JObj [("dateTime", JObj [("year", JStr "2024"); ("month", JStr "1");
                           ("day", JStr "5"); ("hour", JStr "10");
                           ("minute", JStr "30")]);
        ("realDateTime", JObj [("year", JStr "2024"); ("month", JStr "1");
                               ("day", JStr "5"); ("hour", JStr "10");
                               ("minute", JStr "34")])].

Definition departure_late_record : departure :=
  Eval vm_compute in
    match build_departure Date_iso_local departure_late with
    | Ok d => d
    | Throw _ => mkDeparture None None JNull
    end.

Definition station_at (d : jsval) : station := mkStation None d.

(** Two stations, 5 metres away and at the searched position itself. *)
Definition stations_5_then_0 : list station :=
  [station_at (Some (JNum 5)); station_at (Some (JNum 0))].

(** The stop-finder payload that yields them. *)
Definition payload_5_then_0 : json :=
  JObj [("stopFinder",
         JObj [("points",
                JArr [JObj [("name", JStr "Bozen");
                            ("ref", JObj [("distance", JNum 5)])];
                      JObj [("name", JStr "Bozen, Bahnhof");
                            ("ref", JObj [("distance", JNum 0)])]])])].



(** A client whose connection never became ready, and one whose writes
    are rejected. *)
Definition redis_down : RedisClient := mkRedis false false false [].
Definition redis_read_only : RedisClient := mkRedis true false true [].

(** A payload with no trips and no status codes. *)
Definition payload_no_trips : json := JObj [("parameters", JArr [])].

Section NearbyOrder.

Variable ToNumber_other : json -> number.



End NearbyOrder.

(* ===================================================================== *)
(** ** The rest of the transport routes *)
(* ===================================================================== *)

(** *** Clock times *)

(** [String(n)] for an integer. *)
Definition String_of_int (n : Z) : string :=
  NilZero.string_of_int (Z.to_int n).

Section Clock.

(** The host's [getHours] and [getMinutes], as functions of the time
    value: the local hour and minute of that instant. *)
Variable getHours : Z -> Z.
Variable getMinutes : Z -> Z.

(** [formatTime]: [None] is [null].  The argument is [null] or a Date;
    nothing in the [try] block can raise. *)
Definition formatTime (jsDate : option Date) : option string :=
  match jsDate with
  | Some date =>
      match getTime date with
      | Some t =>
          let hours := padStart2 (String_of_int (getHours t)) in
          let minutes := padStart2 (String_of_int (getMinutes t)) in
          Some (hours ++ ":" ++ minutes)
      | None => None
      end
  | None => None
  end.

(** Lines 521-522 and 537-538: the [time] and [realTime] fields of a
    departure, from its scheduled and real-time instants. *)
Definition departure_time (scheduled : option Date) : json :=
  match truthy_text (formatTime scheduled) with
  | Some scheduledTime => JStr scheduledTime
  | None => JStr "N/A"
  end.

Definition departure_realTime (scheduled real : option Date) : json :=
  match truthy_text (formatTime real) with
  | Some realTime =>
      match formatTime scheduled with
      | Some scheduledTime =>
          if String.eqb realTime scheduledTime then JNull else JStr realTime
      | None => JStr realTime
      end
  | None => JNull
  end.

End Clock.

(** The hour and minute of a time value in a server whose zone is UTC. *)
Definition getHours_utc (t : Z) : Z := (t / 3600000) mod 24.
Definition getMinutes_utc (t : Z) : Z := (t / 60000) mod 60.

(** *** Station search by name ([/stations]) *)

(** Text is held as its UTF-8 bytes.  The host counts [length] in
    UTF-16 code units: one for every character of one to three bytes and
    two for a character of four bytes, so a lead byte below 240 counts
    one, a lead byte from 240 on two, and a continuation byte (128 to
    191) nothing. *)
Definition utf16_units (c : ascii) : nat :=
  let n := nat_of_ascii c in
  if (n <? 128)%nat then 1%nat
  else if (n <? 192)%nat then 0%nat
  else if (n <? 240)%nat then 1%nat
  else 2%nat.

Fixpoint utf16_length (s : string) : nat :=
  match s with
  | EmptyString => 0%nat
  | String c rest => (utf16_units c + utf16_length rest)%nat
  end.

(** [s.trim()]. *)
Definition trim (s : string) : string :=
  string_of_list_ascii (trim_end (trim_start (list_ascii_of_string s))).

(** A station of the name search. *)
Record named_station : Type := mkNamedStation {
  station_id : json;
  station_name : json;
  station_locality : json;
  station_coords : option (number * number);
  station_type : json
}.

Section Stations.

(** The text the host's ToString gives for a value on which the
    conversion completes; it is used by the template literal of the
    generated identifier. *)
Variable ToString : jsval -> string.

(** Lines 371-379: one iteration over the points.  The template
    literal is evaluated only when neither [point.ref?.id] nor
    [point.stateless] is truthy, and raises when the name or the
    locality cannot be converted to text. *)
Definition build_named_station (point : json) : result named_station :=
  ref <- get point "ref" ;;
  coords <- extractCoords ref ;;
  let name := get_opt (Some point) "name" in
  let locality := or_val (get_opt (Some point) "locality") (get_opt ref "place") in
  if generated_id_raises point ref then Throw TypeError
  else
    let generated := "gen_" ++ ToString name ++ "_" ++ ToString locality in
    Ok (mkNamedStation
          (or_else (get_opt ref "id")
             (or_else (get_opt (Some point) "stateless") (JStr generated)))
          (or_else name (JStr "Unbekannter Name"))
          (or_else locality (JStr "Unbekannter Ort"))
          coords
          (or_else (get_opt (Some point) "anyType") (JStr "unknown"))).

Fixpoint build_named_stations (points : list json) : result (list named_station) :=
  match points with
  | [] => Ok []
  | point :: rest =>
      st <- build_named_station point ;;
      sts <- build_named_stations rest ;;
      Ok (st :: sts)
  end.

(** The [try] body of the name-search handler from the payload on
    (lines 357-385). *)
Definition stations_process (efaData : json)
  : result (verdict (list named_station)) :=
  stopFinder <- get efaData "stopFinder" ;;
  _ <- logEfaMessages (get_opt stopFinder "message") ;;
  let error := get_opt (Some efaData) "error" in
  if truthy error then Throw (EFA_API_Error error)
  else
    let pointsData := get_opt (get_opt (Some efaData) "stopFinder") "points" in
    match pointsData with
    | Some data =>
        if truthy_json data then
          stations <- build_named_stations (pointsArray data) ;;
          Ok (Proceed stations)
        else Ok (Proceed [])
    | None => Ok (Proceed [])
    end.

(** The [catch] block of the name-search handler. *)
Definition stations_catch (e : exn) : response (list named_station) :=
  Fail (if isEfaApiError e then 502%Z else status_or_500 (response_status e)) None
    (or_else (response_message e)
       (JStr (if isEfaApiError e
              then "Fehler bei Kommunikation mit EFA."
              else "Haltestellen konnten nicht abgerufen werden."))).

Section StationsHandler.

Variable JSON_stringify : list named_station -> string.
Variable JSON_parse : string -> result json.

(** [router.get('/stations', ...)]: [query] is the query parameter,
    absent or text. *)
Definition stations_handler (c : RedisClient) (query_text : option string)
  (fetch : result json) : response (list named_station) * RedisClient :=
  match truthy_text query_text with
  | Some q =>
      let trimmedQuery := trim q in
      if (Z.of_nat (utf16_length trimmedQuery) <? 3)%Z
      then (Fail 400 None
              (JStr "Suchbegriff fehlt oder ist zu kurz (mind. 3 Zeichen)."), c)
      else query JSON_stringify JSON_parse stations_process stations_catch 3600 c
             ("transport:stations:" ++ trimmedQuery) fetch
  | None =>
      (Fail 400 None
         (JStr "Suchbegriff fehlt oder ist zu kurz (mind. 3 Zeichen)."), c)
  end.

End StationsHandler.

End Stations.

(** *** Parameters of the proximity search *)

(** [parseInt(s, 10)]: the longest prefix, after leading white space,
    that is an optional sign and decimal digits; NaN when there is no
    digit. *)
Definition parseInt10 (s : string) : number :=
  let trimmed := skip_white_space s in
  let '(negative, rest) :=
    match trimmed with
    | String "-" r => (true, r)
    | String "+" r => (false, r)
    | _ => (false, trimmed)
    end in
  let '(value, count, _) := read_digits 0 0 rest in
  if (0 <? count)%Z
  then to_double (inject_Z (if negative then (- value)%Z else value))
  else NaN.

(** [n > q] and [n < q] for a number literal [q]; false on NaN. *)
Definition gt (n : number) (q : Q) : bool :=
  match n with
  | PosInf => true
  | Fin x => negb (Qle_bool x q)
  | _ => false
  end.

Definition lt (n : number) (q : Q) : bool :=
  match n with
  | NegInf => true
  | Fin x => negb (Qle_bool q x)
  | _ => false
  end.

(** [n <= 0]. *)
Definition le_zero (n : number) : bool :=
  match n with
  | NegInf => true
  | Fin x => Qle_bool x 0
  | _ => false
  end.

(** How the parameter checks of the proximity handler end (lines
    400-409): a missing coordinate, an invalid value, or the numbers the
    handler goes on with. *)
Inductive nearby_params : Type :=
| MissingParams
| InvalidParams
| ValidParams (latitude longitude searchRadius : number).

(** [lat], [lon] and [radius] are the query parameters, absent or text;
    an absent radius defaults to the number 1000. *)
Definition nearby_validate (lat lon radius : option string) : nearby_params :=
  match truthy_text lat, truthy_text lon with
  | Some lat_text, Some lon_text =>
      let latitude := parseFloat lat_text in
      let longitude := parseFloat lon_text in
      let searchRadius :=
        match radius with
        | Some radius_text => parseInt10 radius_text
        | None => Fin 1000
        end in
      if isNaN latitude || isNaN longitude || isNaN searchRadius
         || le_zero searchRadius
         || gt latitude 90 || lt latitude (-90)
         || gt longitude 180 || lt longitude (-180)
      then InvalidParams
      else ValidParams latitude longitude searchRadius
  | _, _ => MissingParams
  end.

(** *** Sample inputs *)

Definition redis_ready : RedisClient := mkRedis true false false [].

(** A stop-finder payload with one point. *)
Definition payload_one_point : json :=
  JObj [("stopFinder",
         JObj [("points",
                JObj [("point",
                       JObj [("name", JStr "Bozen");
                             ("ref", JObj [("coords", JStr "11.35,46.50")])])])])].

(** A leg with times, and a walk with the provider's own duration and
    no times. *)
Definition leg_timed : json :=
  JObj [("points", JArr [point_at "10" "0"; point_at "10" "10"])].

Definition leg_walk : json :=
  JObj [("mode", JObj [("type", JStr "FOOTPATH")]); ("duration", JStr "3")].

Definition segment_of (leg : json) : segment :=
  match build_segment Date_iso_local leg with
  | Ok seg => seg
  | Throw _ => mkSegment false None None None None JNull
  end.

Definition segment_timed : segment := Eval vm_compute in segment_of leg_timed.
Definition segment_walk : segment := Eval vm_compute in segment_of leg_walk.

(** A trip made of these two legs. *)
Definition trip_one_timed_leg : json :=
  JObj [("legs", JArr [leg_timed; leg_walk])].

Definition route_one_timed_leg : route :=
  Eval vm_compute in
    match process_trip Date_iso_local trip_one_timed_leg with
    | Ok (Some r) => r
    | _ => mkRoute JNull JNull []
    end.

(** The host's ToString on the values the samples need: text,
    [undefined] and [null]. *)
Definition ToString_sample (v : jsval) : string :=
  match v with
  | Some (JStr text) => text
  | Some JNull => "null"
  | None => "undefined"
  | Some _ => "[object Object]"
  end.

(** A point with a name and coordinates and no identifier. *)
Definition point_bozen : json :=
  JObj [("name", JStr "Bozen"); ("ref", JObj [("coords", JStr "11.35,46.50")])].

Definition station_bozen : named_station :=
  Eval vm_compute in
    match build_named_station ToString_sample point_bozen with
    | Ok st => st
    | Throw _ => mkNamedStation JNull JNull JNull None JNull
    end.

(** Departure-monitor payloads whose message list holds a stop-unknown
    code: [{ departureMonitor: { message: [{ name: "code", value:
    "-3010" }, null] } }], and [{ message: { text: 5 }, departureMonitor:
    { message: [{ name: "code", value: "-3011" }] } }]. *)
Definition items_unknown_stop_and_null : list json :=
  [JObj [("name", JStr "code"); ("value", JStr "-3010")]; JNull].

Definition payload_unknown_stop_and_null : list (string * json) :=
  [("departureMonitor", JObj [("message", JArr items_unknown_stop_and_null)])].

Definition payload_unknown_stop_numeric_text : list (string * json) :=
  [("message", JObj [("text", JNum 5)]);
   ("departureMonitor",
    JObj [("message", JArr [JObj [("name", JStr "code"); ("value", JStr "-3011")]])])].

(** A departure-monitor payload whose message is a single object. *)
Definition payload_unknown_stop_object : list (string * json) :=
  [("error", JStr "internal error");
   ("departureMonitor", JObj [("message", JObj [("code", JNum (-3011))])])].

(* ===================================================================== *)
(** * Properties *)
(* ===================================================================== *)


(** ** Duration between two instants *)

Lemma Math_round_div_nearest (n d : Z) :
  (0 < d)%Z ->
  (2 * d * Math_round_div n d - d <= 2 * n < 2 * d * Math_round_div n d + d)%Z.
Proof.
  intros Hd. unfold Math_round_div.
  pose proof (Z.div_mod (2 * n + d) (2 * d) ltac:(lia)) as Hdm.
  pose proof (Z.mod_pos_bound (2 * n + d) (2 * d) ltac:(lia)) as Hb.
  lia.
Qed.

Lemma Math_round_div_nonneg (n d : Z) :
  (0 <= n)%Z -> (0 < d)%Z -> (0 <= Math_round_div n d)%Z.
Proof.
  intros Hn Hd. unfold Math_round_div. apply Z.div_pos; lia.
Qed.

Lemma calculateDurationMinutes_instants (a b : option Date) :
  calculateDurationMinutes a b =
  match instant a, instant b with
  | Some ta, Some tb =>
      if (tb - ta <? 0)%Z then None else Some (Math_round_div (tb - ta) 60000)
  | _, _ => None
  end.
Proof.
  unfold calculateDurationMinutes, instant.
  destruct a as [[[ta|]]|], b as [[[tb|]]|]; reflexivity.
Qed.

(** C8.  [calculateDurationMinutes a b] is unavailable when either instant
    is absent (null, or an invalid Date) or when [b] is earlier than [a];
    otherwise it is the number of whole minutes nearest to [(b - a) / 60 s]
    (halves rounded up), which is never negative. *)
Theorem calculateDurationMinutes_spec (a b : option Date) :
  (instant a = None \/ instant b = None -> calculateDurationMinutes a b = None) /\
  (forall ta tb : Z, instant a = Some ta -> instant b = Some tb ->
     ((tb < ta)%Z -> calculateDurationMinutes a b = None) /\
     ((ta <= tb)%Z ->
        exists m : Z,
          calculateDurationMinutes a b = Some m /\
          m = Math_round_div (tb - ta) 60000 /\
          (0 <= m)%Z /\
          (60000 * m - 30000 <= tb - ta < 60000 * m + 30000)%Z)).
Proof.
  rewrite calculateDurationMinutes_instants. split.
  - intros [H | H]; rewrite H; [reflexivity | destruct (instant a); reflexivity].
  - intros ta tb Ha Hb. rewrite Ha, Hb. split; intros Hlt.
    + destruct (Z.ltb_spec (tb - ta) 0) as [_ | Hge]; [reflexivity | lia].
    + destruct (Z.ltb_spec (tb - ta) 0) as [Hneg | Hge]; [lia |].
      exists (Math_round_div (tb - ta) 60000).
      pose proof (Math_round_div_nearest (tb - ta) 60000 ltac:(lia)).
      pose proof (Math_round_div_nonneg (tb - ta) 60000 Hge ltac:(lia)).
      repeat split; lia.
Qed.

Lemma calculateDurationMinutes_spec_witness :
  exists m : Z,
    calculateDurationMinutes (Some (mkDate (Some 0%Z))) (Some (mkDate (Some 629999%Z)))
      = Some m /\
    m = Math_round_div (629999 - 0) 60000 /\
    (0 <= m)%Z /\
    (60000 * m - 30000 <= 629999 - 0 < 60000 * m + 30000)%Z.
Proof.
  destruct (calculateDurationMinutes_spec
              (Some (mkDate (Some 0%Z))) (Some (mkDate (Some 629999%Z))))
    as [_ H].
  destruct (H 0%Z 629999%Z eq_refl eq_refl) as [_ Hle].
  apply Hle. lia.
Defined.

Example duration_rounds_half_up :
  calculateDurationMinutes (Some (mkDate (Some 0%Z))) (Some (mkDate (Some 630000%Z)))
    = Some 11%Z /\
  calculateDurationMinutes (Some (mkDate (Some 0%Z))) (Some (mkDate (Some 629999%Z)))
    = Some 10%Z /\
  calculateDurationMinutes (Some (mkDate (Some 60000%Z))) (Some (mkDate (Some 0%Z)))
    = None /\
  calculateDurationMinutes (Some (mkDate None)) (Some (mkDate (Some 0%Z))) = None.
Proof. repeat split; reflexivity. Qed.

(** ** Shape normalisation *)

(** C9.  For the trips, the legs of a trip and the departure list, an
    absent or null field gives the empty sequence, a bare object the
    one-element sequence holding it, and an array its own elements in
    their order. *)
Theorem shape_normalization :
  (tripsArray None = [] /\ tripsArray (Some JNull) = [] /\
   (forall fields, tripsArray (Some (JObj fields)) = [JObj fields]) /\
   (forall items, tripsArray (Some (JArr items)) = items)) /\
  (legsArray None = [] /\ legsArray (Some JNull) = [] /\
   (forall fields, legsArray (Some (JObj fields)) = [JObj fields]) /\
   (forall items, legsArray (Some (JArr items)) = items)) /\
  (departureListArray None = [] /\ departureListArray (Some JNull) = [] /\
   (forall fields, departureListArray (Some (JObj fields)) = [JObj fields]) /\
   (forall items, departureListArray (Some (JArr items)) = items)).
Proof. repeat split; reflexivity. Qed.

(** ** Temporal fragments *)

Section TemporalFacts.

Variable new_Date : string -> Date.

(** What the function checks: the five fields are text and the host
    accepts the composed string. *)
Lemma parseEfaDateTime_Some (v : jsval) (d : Date) :
  parseEfaDateTime new_Date v = Some d <->
  exists year month day hour minute : string,
    as_string (get_opt v "year") = Some year /\
    as_string (get_opt v "month") = Some month /\
    as_string (get_opt v "day") = Some day /\
    as_string (get_opt v "hour") = Some hour /\
    as_string (get_opt v "minute") = Some minute /\
    d = new_Date (dateString year month day hour minute) /\
    getTime d <> None.
Proof.
  unfold parseEfaDateTime. split.
  - destruct (truthy v) eqn:Ht; simpl; [| discriminate].
    destruct (as_string (get_opt v "year")) as [y|]; [| discriminate].
    destruct (as_string (get_opt v "month")) as [mo|]; [| discriminate].
    destruct (as_string (get_opt v "day")) as [da|]; [| discriminate].
    destruct (as_string (get_opt v "hour")) as [h|]; [| discriminate].
    destruct (as_string (get_opt v "minute")) as [mi|]; [| discriminate].
    destruct (getTime (new_Date (dateString y mo da h mi))) eqn:Hg; [| discriminate].
    intros [= <-]. exists y, mo, da, h, mi. rewrite Hg.
    repeat split; congruence.
  - intros (y & mo & da & h & mi & Hy & Hmo & Hda & Hh & Hmi & -> & Hg).
    assert (Ht : truthy v = true).
    { destruct v as [[| | | | |]|]; simpl in Hy; try discriminate. reflexivity. }
    rewrite Ht, Hy, Hmo, Hda, Hh, Hmi. simpl.
    destruct (getTime (new_Date (dateString y mo da h mi))); congruence.
Qed.

(** A result is never an invalid Date. *)
Lemma parseEfaDateTime_valid (v : jsval) (d : Date) :
  parseEfaDateTime new_Date v = Some d -> exists t, instant (Some d) = Some t.
Proof.
  intros H. apply parseEfaDateTime_Some in H.
  destruct H as (? & ? & ? & ? & ? & _ & _ & _ & _ & _ & _ & Hg).
  simpl. destruct (getTime d) as [t|]; [eauto | congruence].
Qed.

End TemporalFacts.

(** C7, at the input on which the code departs from it.  A fragment
    whose hour and minute are empty texts is not rejected: padding turns
    each empty field into [00], so on every host the fragment is read
    exactly as the one that spells midnight out, and on a host that
    accepts the ECMAScript date-time format the result is the instant of
    midnight of that day, not "unavailable". *)
Theorem parseEfaDateTime_empty_hour_minute :
  (forall new_Date : string -> Date,
     parseEfaDateTime new_Date (fragment "2024" "1" "5" "" "")
     = parseEfaDateTime new_Date (fragment "2024" "01" "05" "00" "00")) /\
  dateString "2024" "1" "5" "" "" = "2024-01-05T00:00:00" /\
  parseEfaDateTime Date_iso_local (fragment "2024" "1" "5" "" "")
  = Some (mkDate (Some 1704412800000%Z)).
Proof. repeat split; reflexivity. Qed.

Example parseEfaDateTime_examples :
  parseEfaDateTime Date_iso_local (fragment "2024" "1" "5" "10" "30")
    = Some (mkDate (Some 1704450600000%Z)) /\
  parseEfaDateTime Date_iso_local (fragment "2024" "13" "5" "10" "30") = None /\
  parseEfaDateTime Date_iso_local (fragment "2024" "x" "5" "10" "30") = None /\
  parseEfaDateTime Date_iso_local
    (Some (JObj [("year", JStr "2024"); ("month", JStr "1"); ("day", JStr "5");
                 ("hour", JStr "10")])) = None /\
  parseEfaDateTime Date_iso_local
    (Some (JObj [("year", JNum 2024); ("month", JStr "1"); ("day", JStr "5");
                 ("hour", JStr "10"); ("minute", JStr "30")])) = None /\
  parseEfaDateTime Date_iso_local None = None /\
  parseEfaDateTime Date_iso_local (Some JNull) = None.
Proof. repeat split; reflexivity. Qed.

(** ** Cache failures *)

Lemma getFromCache_unavailable (c : RedisClient) (key : string) :
  isReady c = false \/ get_fails c = true -> getFromCache c key = None.
Proof.
  unfold getFromCache, redis_get.
  intros [H | H]; rewrite H; simpl; [reflexivity |].
  destruct (isReady c); reflexivity.
Qed.

Lemma setInCache_unavailable (c : RedisClient) (key value : string) (ex : Z) :
  isReady c = false \/ set_fails c = true -> setInCache c key value ex = c.
Proof.
  unfold setInCache, redis_set.
  intros [H | H]; rewrite H; simpl; [reflexivity |].
  destruct (isReady c); reflexivity.
Qed.

Section CacheFacts.

Variable A : Type.
Variable JSON_stringify : A -> string.
Variable JSON_parse : string -> result json.
Variable process : json -> result (verdict A).
Variable on_error : exn -> response A.
Variable ttl : Z.

Lemma query_miss (c : RedisClient) (key : string) (fetch : result json) :
  cache_hit (getFromCache c key) = None ->
  fst (query JSON_stringify JSON_parse process on_error ttl c key fetch)
  = query_uncached process on_error fetch.
Proof.
  intros Hmiss. unfold query, query_uncached. rewrite Hmiss.
  destruct (bind fetch process) as [[st code msg | data] | e]; reflexivity.
Qed.

(** C5.  When the cache connection is not ready or the read is rejected,
    the lookup is a miss and the query answers exactly what it answers
    with no cache at all; after any miss the answer is that fresh one
    whether the write of the result is accepted or rejected; and a write
    that cannot be made leaves the cache as it was, without raising. *)
Theorem cache_failure_never_fatal (c : RedisClient) (key : string)
  (fetch : result json) :
  (isReady c = false \/ get_fails c = true ->
     getFromCache c key = None /\
     fst (query JSON_stringify JSON_parse process on_error ttl c key fetch)
     = query_uncached process on_error fetch) /\
  (cache_hit (getFromCache c key) = None ->
     fst (query JSON_stringify JSON_parse process on_error ttl c key fetch)
     = query_uncached process on_error fetch) /\
  (forall value : string,
     isReady c = false \/ set_fails c = true -> setInCache c key value ttl = c).
Proof.
  split; [| split].
  - intros H. pose proof (getFromCache_unavailable c key H) as Hnone.
    split; [exact Hnone |]. apply query_miss. rewrite Hnone. reflexivity.
  - apply query_miss.
  - intros value H. apply setInCache_unavailable. exact H.
Qed.

End CacheFacts.

Lemma cache_failure_never_fatal_witness :
  (getFromCache redis_down "transport:route:Bozen:Meran" = None /\
   fst (query (fun _ => "[]") (fun _ => Ok (JArr []))
          (route_process Date_iso_local) route_catch 300
          redis_down "transport:route:Bozen:Meran" (Ok payload_no_trips))
   = query_uncached (route_process Date_iso_local) route_catch (Ok payload_no_trips)) /\
  fst (query (fun _ => "[]") (fun _ => Ok (JArr []))
         (route_process Date_iso_local) route_catch 300
         redis_read_only "transport:route:Bozen:Meran" (Ok payload_no_trips))
  = query_uncached (route_process Date_iso_local) route_catch (Ok payload_no_trips) /\
  setInCache redis_read_only "transport:route:Bozen:Meran" "[]" 300 = redis_read_only.
Proof.
  split; [| split].
  - apply (cache_failure_never_fatal (list route) (fun _ => "[]") (fun _ => Ok (JArr []))
             (route_process Date_iso_local) route_catch 300
             redis_down "transport:route:Bozen:Meran" (Ok payload_no_trips)).
    left. reflexivity.
  - apply (cache_failure_never_fatal (list route) (fun _ => "[]") (fun _ => Ok (JArr []))
             (route_process Date_iso_local) route_catch 300
             redis_read_only "transport:route:Bozen:Meran" (Ok payload_no_trips)).
    reflexivity.
  - apply (cache_failure_never_fatal (list route) (fun _ => "[]") (fun _ => Ok (JArr []))
             (route_process Date_iso_local) route_catch 300
             redis_read_only "transport:route:Bozen:Meran" (Ok payload_no_trips)).
    right. reflexivity.
Defined.

Example query_served_fresh_when_cache_down :
  fst (query (fun _ => "[]") (fun _ => Ok (JArr []))
         (route_process Date_iso_local) route_catch 300
         redis_down "transport:route:Bozen:Meran" (Ok payload_no_trips))
  = Fresh [].
Proof. reflexivity. Qed.

(** ** Classification of provider status codes *)

Lemma some_true (p : json -> result bool) (l : list json) :
  (forall m, In m l -> exists b, p m = Ok b) ->
  (exists m, In m l /\ p m = Ok true) ->
  some p l = Ok true.
Proof.
  induction l as [| x l IH]; intros Htot [m [Hin Hm]]; [destruct Hin |].
  simpl. destruct (Htot x (or_introl eq_refl)) as [b Hb]. rewrite Hb.
  destruct b; [reflexivity |].
  apply IH.
  - intros y Hy. apply Htot. right. exact Hy.
  - destruct Hin as [-> | Hin]; [congruence | eauto].
Qed.


Lemma is_stop_unknown_code_total (m : json) :
  m <> JNull -> exists b, is_stop_unknown_code m = Ok b.
Proof.
  intros Hm. unfold is_stop_unknown_code.
  destruct m as [| b | q | s | items | fields]; try congruence; simpl;
    try (eexists; reflexivity).
  destruct (is_str (lookup "name" fields) "code"); eexists; reflexivity.
Qed.

Lemma is_stop_unknown_code_entry (m : json) :
  code_entry "-3010" m \/ code_entry "-3011" m ->
  is_stop_unknown_code m = Ok true.
Proof.
  intros [H | H]; destruct H as (fields & -> & Hname & Hvalue);
    unfold is_stop_unknown_code; simpl; rewrite Hname, Hvalue; reflexivity.
Qed.



Lemma not_in_null (items : list json) (m : json) :
  ~ In JNull items -> In m items -> m <> JNull.
Proof. intros Hn Hin ->. exact (Hn Hin). Qed.

Lemma loggable_or_val (a b : jsval) :
  loggable a -> loggable b -> loggable (or_val a b).
Proof. intros Ha Hb. unfold or_val. destruct (truthy a); assumption. Qed.

Section ClassifierFacts.

Variable new_Date : string -> Date.

(** Where the messages of the payload are readable, the stop-unknown
    check comes first: when the logging of line 497 returns and the
    departure-monitor message list has no null entry and holds an entry
    with code [-3010] or [-3011], the reply is the 404 "stop not found",
    also for a payload that carries a technical error. *)
Lemma stop_not_found_precedence (fields : list (string * json))
  (departureMonitor : json) (items : list json) :
  lookup "departureMonitor" fields = Some departureMonitor ->
  message_list (get_opt (Some departureMonitor) "message") items ->
  loggable (or_val (lookup "message" fields) (Some (JArr items))) ->
  (exists m, In m items /\ (code_entry "-3010" m \/ code_entry "-3011" m)) ->
  departures_reply new_Date (Ok (JObj fields))
  = Fail 404 None (JStr "Haltestelle nicht gefunden.").
Proof.
  intros Hdm [Hmsg Hnonull] Hlog (m & Hin & Hcode).
  unfold departures_reply, query_uncached, departures_process.
  cbn [bind get get_opt]. rewrite Hdm. cbn [get_opt] in Hmsg |- *. rewrite Hmsg.
  unfold loggable in Hlog. rewrite Hlog.
  cbn [bind stopNotFound].
  rewrite (some_true is_stop_unknown_code items).
  - reflexivity.
  - intros x Hx. apply is_stop_unknown_code_total. eapply not_in_null; eauto.
  - exists m. split; [exact Hin | apply is_stop_unknown_code_entry; exact Hcode].
Qed.

(** C2.  The stop-unknown code does not always give NotFound: the
    logging of line 497 runs before the check and raises on a message it
    cannot read, and the handler then answers the generic 500.  This
    happens for a departure-monitor message list that holds the code
    [-3010] and a null entry, and for a list that holds the code [-3011]
    when the payload also has a top-level message whose text is the
    number 5, against the handler's own comments (lines 485, 499 and
    549), which want the 404 for such a payload. *)
Theorem stop_code_answered_500 :
  (exists m, In m items_unknown_stop_and_null /\ code_entry "-3010" m) /\
  departures_reply new_Date (Ok (JObj payload_unknown_stop_and_null))
  = Fail 500 None (JStr "Abfahrtszeiten konnten nicht abgerufen werden.") /\
  departures_reply new_Date (Ok (JObj payload_unknown_stop_numeric_text))
  = Fail 500 None (JStr "Abfahrtszeiten konnten nicht abgerufen werden.").
Proof.
  split; [| split; reflexivity].
  eexists. split; [left; reflexivity |].
  eexists. repeat split; reflexivity.
Qed.

End ClassifierFacts.

Lemma stop_not_found_precedence_sample :
  truthy (lookup "error" payload_unknown_stop_with_error) = true /\
  departures_reply Date_iso_local (Ok (JObj payload_unknown_stop_with_error))
  = Fail 404 None (JStr "Haltestelle nicht gefunden.").
Proof.
  split; [reflexivity |].
  eapply (stop_not_found_precedence Date_iso_local payload_unknown_stop_with_error).
  - reflexivity.
  - split; [reflexivity |].
    simpl. intros [H | [H | []]]; discriminate H.
  - reflexivity.
  - eexists. split; [right; left; reflexivity |].
    right. eexists. repeat split; reflexivity.
Qed.

(** A single message object is checked through its numeric [code]; and
    the reply for a list with a null entry is the generic 500, the
    entry being unreadable. *)
Example departures_message_shapes :
  departures_reply Date_iso_local
    (Ok (JObj [("departureMonitor", JObj [("message", JObj [("code", JNum (-3010))])])]))
  = Fail 404 None (JStr "Haltestelle nicht gefunden.") /\
  departures_reply Date_iso_local
    (Ok (JObj [("departureMonitor",
                JObj [("message",
                       JArr [JNull;
                             JObj [("name", JStr "code"); ("value", JStr "-3010")]])])]))
  = Fail 500 None (JStr "Abfahrtszeiten konnten nicht abgerufen werden.") /\
  departures_reply Date_iso_local (Ok (JObj [("error", JStr "internal error")]))
  = Fail 502 None (JStr "Fehler bei Kommunikation mit EFA.") /\
  departures_reply Date_iso_local (Ok (JObj [])) = Fresh [].
Proof. repeat split; reflexivity. Qed.

(** *** Ambiguous locations *)

Section AmbiguityFacts.

Variable new_Date : string -> Date.





End AmbiguityFacts.



(** ** Total duration of an itinerary *)

Lemma total_duration_claim_refuted : ~ total_duration_claim.
Proof.
  intros Hclaim. specialize (Hclaim legs_second_arrival_unknown).
  vm_compute in Hclaim. discriminate Hclaim.
Qed.

Lemma add_leg_total (total : Z) (previous_arrival : option Date) (leg : leg_times) :
  add_leg (total, previous_arrival) leg
  = ((total + if_available (travel_time leg)
      + match travel_time leg with
        | Some _ => if_positive (waiting_time previous_arrival leg)
        | None => 0
        end)%Z, snd leg).
Proof.
  destruct leg as [departure arrival].
  unfold add_leg, travel_time, waiting_time, if_available, if_positive. simpl.
  assert (Hwait :
    match previous_arrival, departure with
    | Some _, Some _ => calculateDurationMinutes previous_arrival departure
    | _, _ => None
    end = calculateDurationMinutes previous_arrival departure).
  { destruct previous_arrival, departure; reflexivity. }
  rewrite Hwait.
  destruct (calculateDurationMinutes departure arrival) as [travel|];
    [| f_equal; lia].
  destruct (calculateDurationMinutes previous_arrival departure) as [wait|];
    [| f_equal; lia].
  destruct (0 <? wait)%Z; f_equal; lia.
Qed.

Lemma fold_add_leg (legs : list leg_times) :
  forall (total : Z) (previous_arrival : option Date),
    fst (fold_left add_leg legs (total, previous_arrival))
    = (total + sum_travel legs + counted_waits previous_arrival legs)%Z.
Proof.
  induction legs as [| leg rest IH]; intros total previous_arrival.
  - simpl. lia.
  - cbn [fold_left]. rewrite add_leg_total, IH. cbn [sum_travel counted_waits]. lia.
Qed.

Lemma counted_waits_all_available (legs : list leg_times) :
  forall previous_arrival,
    Forall (fun leg => travel_time leg <> None) legs ->
    counted_waits previous_arrival legs = sum_waits previous_arrival legs.
Proof.
  induction legs as [| leg rest IH]; intros previous_arrival Hall; [reflexivity |].
  inversion Hall as [| ? ? Hleg Hrest]; subst.
  simpl. rewrite (IH _ Hrest).
  destruct (travel_time leg); [reflexivity | congruence].
Qed.

Lemma get_get_opt (j : json) (k : string) (v : jsval) :
  get j k = Ok v -> v = get_opt (Some j) k.
Proof.
  destruct j; simpl; intros H; try discriminate; injection H as <-; reflexivity.
Qed.

Section ItineraryFacts.

Variable new_Date : string -> Date.

Lemma process_legs_totals (legs : list json) :
  forall (acc acc' : totals) (done segs : list segment),
    process_legs new_Date legs acc done = Ok (acc', segs) ->
    exists added,
      segs = (done ++ added)%list /\
      acc' = fold_left add_leg (map segment_times added) acc.
Proof.
  induction legs as [| leg rest IH]; intros acc acc' done segs H.
  - simpl in H. injection H as <- <-. exists []. rewrite app_nil_r. split; reflexivity.
  - simpl in H. destruct (build_segment new_Date leg) as [seg | e]; simpl in H;
      [| discriminate].
    destruct (IH _ _ _ _ H) as (added & -> & ->).
    exists (seg :: added). rewrite <- app_assoc. split; reflexivity.
Qed.

Lemma process_trip_duration (trip : json) (r : route) :
  process_trip new_Date trip = Ok (Some r) ->
  duration r
  = route_duration (get_opt (Some trip) "duration")
      (calculatedTotalDuration (map segment_times (segments r))).
Proof.
  unfold process_trip. intros H.
  destruct (get trip "duration") as [trip_duration | e] eqn:Hd; simpl in H;
    [| discriminate].
  destruct (get trip "interchanges") as [trip_interchanges | e]; simpl in H;
    [| discriminate].
  destruct (get trip "legs") as [legs | e]; simpl in H; [| discriminate].
  destruct (process_legs new_Date (legsArray legs) (0%Z, None) [])
    as [[[total previous] segs] | e] eqn:Hlegs; simpl in H; [| discriminate].
  destruct (process_legs_totals _ _ _ _ _ Hlegs) as (added & Hsegs & Hacc).
  simpl in Hsegs. subst segs.
  destruct added as [| seg added]; [discriminate |].
  injection H as <-. simpl segments. simpl duration.
  unfold calculatedTotalDuration. rewrite <- Hacc. simpl fst.
  rewrite (get_get_opt _ _ _ Hd). reflexivity.
Qed.

(** C1, amended.  The total accumulated over the legs of a trip is the
    sum of the travel times that are available plus, for each leg whose
    own travel time is available, the waiting time since the arrival of
    the leg before it when that waiting time is available and strictly
    positive (so it is the sum the specification describes whenever
    every leg has a travel time); travel times 10 and 15 with a gap of 5
    give 30, with a gap of 0 they give 25; and the route's duration is
    the total exactly when the total is greater than zero, the
    provider's value (or null) otherwise. *)
Theorem itinerary_total_duration :
  (forall legs : list leg_times,
     calculatedTotalDuration legs = (sum_travel legs + counted_waits None legs)%Z) /\
  (forall legs : list leg_times,
     Forall (fun leg => travel_time leg <> None) legs ->
     calculatedTotalDuration legs = (sum_travel legs + sum_waits None legs)%Z) /\
  (calculatedTotalDuration legs_gap_5 = 30%Z /\
   calculatedTotalDuration legs_gap_0 = 25%Z) /\
  (forall (trip : json) (r : route),
     process_trip new_Date trip = Ok (Some r) ->
     let total := calculatedTotalDuration (map segment_times (segments r)) in
     ((0 < total)%Z -> duration r = JNum (inject_Z total)) /\
     ((total <= 0)%Z -> duration r = or_else (get_opt (Some trip) "duration") JNull)).
Proof.
  split; [| split; [| split]].
  - intros legs. unfold calculatedTotalDuration. rewrite fold_add_leg. lia.
  - intros legs Hall. unfold calculatedTotalDuration.
    rewrite fold_add_leg, (counted_waits_all_available _ _ Hall). lia.
  - split; reflexivity.
  - intros trip r H total. rewrite (process_trip_duration trip r H).
    fold total. unfold route_duration.
    split; intros Ht.
    + destruct (Z.ltb_spec 0 total); [reflexivity | lia].
    + destruct (Z.ltb_spec 0 total); [lia | reflexivity].
Qed.

End ItineraryFacts.

Example process_trip_gap_5 :
  match process_trip Date_iso_local trip_gap_5 with
  | Ok (Some r) => duration r = JNum (inject_Z 30) /\ List.length (segments r) = 2%nat
  | _ => False
  end.
Proof. vm_compute. split; reflexivity. Qed.

(** The wait of 5 minutes before the second leg is not counted when
    that leg has no travel time: the route's duration is 10, not 15. *)
Example process_trip_second_arrival_unknown :
  match process_trip Date_iso_local trip_second_arrival_unknown with
  | Ok (Some r) =>
      duration r = JNum (inject_Z 10) /\
      (sum_travel (map segment_times (segments r))
       + sum_waits None (map segment_times (segments r)))%Z = 15%Z
  | _ => False
  end.
Proof. vm_compute. split; reflexivity. Qed.

Lemma itinerary_total_duration_witness :
  duration route_gap_5 = JNum (inject_Z 30) /\
  calculatedTotalDuration legs_gap_0
  = (sum_travel legs_gap_0 + sum_waits None legs_gap_0)%Z.
Proof.
  destruct (itinerary_total_duration Date_iso_local) as (_ & Hall & _ & Htrip).
  split.
  - destruct (Htrip trip_gap_5 route_gap_5 eq_refl) as [Hpos _].
    apply Hpos. vm_compute. reflexivity.
  - apply Hall. repeat constructor; vm_compute; discriminate.
Defined.

(** ** Coordinates *)

Lemma geo_claim_refuted : ~ geo_claim.
Proof.
  intros Hclaim.
  destruct (Hclaim "200,100" (Fin 100) (Fin 200)) as [Hto _].
  destruct (Hto eq_refl) as (part0 & part1 & _ & _ & _ & Hrange).
  destruct Hrange as (_ & Hle & _).
  revert Hle. unfold Qle. simpl. lia.
Qed.

Lemma split_not_nil (sep : ascii) (s : string) : split sep s <> [].
Proof.
  destruct s as [| c rest]; simpl; [discriminate |].
  destruct (Ascii.eqb c sep); [discriminate |].
  destruct (split sep rest); discriminate.
Qed.

Lemma split_no_sep (sep : ascii) (s : string) :
  has_char sep s = false -> split sep s = [s].
Proof.
  induction s as [| c rest IH]; simpl; [reflexivity |].
  intros H. apply orb_false_elim in H. destruct H as [Hc Hrest].
  rewrite Hc, (IH Hrest). reflexivity.
Qed.

Lemma split_app (sep : ascii) (a b : string) :
  has_char sep a = false ->
  split sep (a ++ String sep b) = a :: split sep b.
Proof.
  induction a as [| c rest IH]; simpl.
  - intros _. rewrite Ascii.eqb_refl. reflexivity.
  - intros H. apply orb_false_elim in H. destruct H as [Hc Hrest].
    rewrite Hc, (IH Hrest). reflexivity.
Qed.

Lemma split_cons_inv (sep : ascii) (s : string) :
  forall (p : string) (ps : list string),
    split sep s = p :: ps ->
    has_char sep p = false /\
    ((ps = [] /\ s = p) \/
     (exists rest, s = p ++ String sep rest /\ split sep rest = ps)).
Proof.
  induction s as [| c rest IH]; intros p ps H; simpl in H.
  - injection H as <- <-. split; [reflexivity | left; split; reflexivity].
  - destruct (Ascii.eqb c sep) eqn:Hc.
    + injection H as <- <-. apply Ascii.eqb_eq in Hc. subst c.
      split; [reflexivity |]. right. exists rest. split; reflexivity.
    + destruct (split sep rest) as [| p' ps'] eqn:Hrest;
        [exfalso; exact (split_not_nil sep rest Hrest) |].
      injection H as <- <-.
      destruct (IH p' ps' eq_refl) as [Hp' Hcases].
      split; [simpl; rewrite Hc, Hp'; reflexivity |].
      destruct Hcases as [[-> ->] | (rest' & -> & Hsplit)].
      * left. split; reflexivity.
      * right. exists rest'. split; [reflexivity | exact Hsplit].
Qed.

(** Splitting at commas gives exactly two parts when the text is two
    comma-free parts joined by one comma. *)
Lemma split_two (sep : ascii) (s a b : string) :
  split sep s = [a; b] <->
  s = a ++ String sep b /\ has_char sep a = false /\ has_char sep b = false.
Proof.
  split.
  - intros H. destruct (split_cons_inv sep s a [b] H) as [Ha Hcases].
    destruct Hcases as [[Hnil _] | (rest & -> & Hrest)]; [discriminate |].
    destruct (split_cons_inv sep rest b [] Hrest) as [Hb Hcases].
    destruct Hcases as [[_ ->] | (rest' & _ & Hnil)].
    + repeat split; assumption.
    + exfalso. exact (split_not_nil sep rest' Hnil).
  - intros (-> & Ha & Hb). rewrite (split_app sep a b Ha), (split_no_sep sep b Hb).
    reflexivity.
Qed.

Lemma isNaN_false (n : number) : isNaN n = false <-> n <> NaN.
Proof. destruct n; simpl; split; congruence. Qed.

(** C3, amended.  On a text the extractor never raises, and it returns
    the point [(lat, lon)] exactly when the text is two comma-free parts
    joined by one comma, [lon] is what [parseFloat] reads from the first
    part and [lat] what it reads from the second, and neither is NaN.
    No bound is checked, and [parseFloat] accepts a numeric prefix and
    the infinities. *)
Theorem extractCoords_text (text : string) :
  (exists r, extractCoords (coords_ref text) = Ok r) /\
  (forall lat lon : number,
     extractCoords (coords_ref text) = Ok (Some (lat, lon)) <->
     exists part0 part1 : string,
       text = part0 ++ String "," part1 /\
       has_char "," part0 = false /\ has_char "," part1 = false /\
       parseFloat part0 = lon /\ parseFloat part1 = lat /\
       lat <> NaN /\ lon <> NaN).
Proof.
  unfold extractCoords, coords_ref. cbn [get_opt lookup String.eqb Ascii.eqb Bool.eqb].
  cbn [truthy truthy_json].
  destruct (String.eqb text "") eqn:Hempty; cbn [negb].
  - apply String.eqb_eq in Hempty. subst text. split; [eexists; reflexivity |].
    intros lat lon. split; [discriminate |].
    intros (part0 & part1 & H & _). destruct part0; discriminate H.
  - destruct (split "," text) as [| part0 [| part1 [| part2 parts]]] eqn:Hsplit.
    + exfalso. exact (split_not_nil _ _ Hsplit).
    + split; [eexists; reflexivity |]. intros lat lon. split; [discriminate |].
      intros (p0 & p1 & H & H0 & H1 & _).
      assert (Hs : split "," text = [p0; p1]) by (apply split_two; auto).
      congruence.
    + apply split_two in Hsplit. destruct Hsplit as (Htext & H0 & H1).
      destruct (isNaN (parseFloat part1)) eqn:Hlat;
        destruct (isNaN (parseFloat part0)) eqn:Hlon; cbn [negb andb];
        (split; [eexists; reflexivity |]); intros lat lon; split;
        try discriminate.
      all: try (intros (p0 & p1 & H & Hp0 & Hp1 & Hlon' & Hlat' & Hnlat & Hnlon);
                assert (Hs : split "," text = [p0; p1]) by (apply split_two; auto);
                assert (Hs' : split "," text = [part0; part1])
                  by (apply split_two; auto);
                rewrite Hs in Hs'; injection Hs' as -> ->; subst lat lon;
                apply isNaN_false in Hnlat; apply isNaN_false in Hnlon;
                congruence).
      intros [= <- <-]. exists part0, part1.
      apply isNaN_false in Hlat. apply isNaN_false in Hlon.
      repeat split; assumption.
    + split; [eexists; reflexivity |]. intros lat lon. split; [discriminate |].
      intros (p0 & p1 & H & H0 & H1 & _).
      assert (Hs : split "," text = [p0; p1]) by (apply split_two; auto).
      congruence.
Qed.

Lemma extractCoords_text_witness :
  extractCoords (coords_ref "11.35,46.50")
  = Ok (Some (parseFloat "46.50", parseFloat "11.35")).
Proof.
  apply (proj2 (extractCoords_text "11.35,46.50")).
  exists "11.35", "46.50".
  repeat split; try reflexivity; discriminate.
Defined.

Example extractCoords_examples :
  extractCoords (coords_ref "11.35,46.50") = Ok (Some (Fin (93 # 2), Fin (227 # 20))) /\
  extractCoords (coords_ref "abc,46.50") = Ok None /\
  extractCoords (coords_ref "11.35") = Ok None /\
  extractCoords (coords_ref "1,2,3") = Ok None /\
  extractCoords (coords_ref "200,100") = Ok (Some (Fin 100, Fin 200)) /\
  extractCoords (coords_ref "Infinity,46.5N") = Ok (Some (Fin (93 # 2), PosInf)) /\
  extractCoords None = Ok None /\
  extractCoords (Some (JObj [("coords", JNum 5)])) = Throw TypeError.
Proof. repeat split; reflexivity. Qed.

(** ** Delay of a departure *)

Lemma delay_claim_refuted : ~ delay_claim.
Proof.
  intros Hclaim.
  destruct (Hclaim Date_iso_local departure_early _ eq_refl) as (q & Hq & Hle).
  simpl in Hq. injection Hq as <-.
  revert Hle. unfold Qle. simpl. lia.
Qed.

Lemma inject_Z_nonneg (z : Z) : (0 <= z)%Z -> (0 <= inject_Z z)%Q.
Proof. intros H. unfold Qle, inject_Z. simpl. lia. Qed.

Section DelayFacts.

Variable new_Date : string -> Date.

Lemma delayMinutes_trusted (v : json) (scheduled real : option Date) :
  truthy_json v = true -> delayMinutes (Some v) scheduled real = v.
Proof.
  intros Ht. unfold delayMinutes. cbn [or_else]. rewrite Ht.
  assert (Hz : is_num (Some v) 0 = false).
  { destruct v; simpl in *; try reflexivity.
    destruct (Qeq_bool q 0); [discriminate | reflexivity]. }
  rewrite Hz. destruct real, scheduled; reflexivity.
Qed.

Lemma delayMinutes_recomputed (dep_delay : jsval) (scheduled real : option Date) :
  truthy dep_delay = false ->
  delayMinutes dep_delay scheduled real
  = match calculateDurationMinutes scheduled real with
    | Some calculated =>
        if (0 <? calculated)%Z then JNum (inject_Z calculated) else JNum 0
    | None => JNum 0
    end.
Proof.
  intros Hf. unfold delayMinutes.
  assert (Hp : or_else dep_delay (JNum 0) = JNum 0).
  { destruct dep_delay as [v|]; [| reflexivity]. simpl in *. rewrite Hf. reflexivity. }
  rewrite Hp. cbn [is_num]. change (Qeq_bool 0 0) with true. cbn iota.
  destruct real as [r|], scheduled as [s|]; reflexivity.
Qed.

(** C4, amended.  The delay of a departure record is the provider's
    figure itself whenever that figure is truthy, so a negative figure
    from the provider stays negative; when the figure is absent or zero
    the delay is the recomputed difference if both instants are
    available and the difference is strictly positive, and 0 otherwise.
    Hence the delay is a number that is not negative whenever the
    provider's figure is absent, zero, or a number that is not
    negative. *)
Theorem departure_delay (dep : json) (d : departure) :
  build_departure new_Date dep = Ok d ->
  let provided := get_opt (Some dep) "delay" in
  (forall v, provided = Some v -> truthy_json v = true -> delay d = v) /\
  (truthy provided = false ->
     delay d
     = match calculateDurationMinutes (scheduledDateTime d) (realDateTime d) with
       | Some calculated =>
           if (0 <? calculated)%Z then JNum (inject_Z calculated) else JNum 0
       | None => JNum 0
       end) /\
  (truthy provided = false \/ (exists q, provided = Some (JNum q) /\ (0 <= q)%Q) ->
     nonneg_minutes (delay d)).
Proof.
  intros H provided. unfold build_departure in H.
  destruct (get dep "dateTime") as [dateTime | e]; simpl in H; [| discriminate].
  injection H as <-. cbn [delay scheduledDateTime realDateTime].
  fold provided.
  set (scheduled := parseEfaDateTime new_Date dateTime).
  set (real := parseEfaDateTime new_Date (get_opt (Some dep) "realDateTime")).
  assert (Hfalsy : truthy provided = false ->
                   nonneg_minutes (delayMinutes provided scheduled real)).
  { intros Hf. rewrite (delayMinutes_recomputed _ _ _ Hf).
    destruct (calculateDurationMinutes scheduled real) as [c|].
    - destruct (Z.ltb_spec 0 c).
      + exists (inject_Z c). split; [reflexivity | apply inject_Z_nonneg; lia].
      + exists 0%Q. split; [reflexivity | apply Qle_refl].
    - exists 0%Q. split; [reflexivity | apply Qle_refl]. }
  split; [| split].
  - intros v Hv Ht. change (delayMinutes provided scheduled real = v).
    rewrite Hv. apply delayMinutes_trusted. exact Ht.
  - intros Hf. exact (delayMinutes_recomputed provided scheduled real Hf).
  - intros [Hf | (q & Hq & Hle)]; [exact (Hfalsy Hf) |].
    change (nonneg_minutes (delayMinutes provided scheduled real)).
    destruct (truthy provided) eqn:Ht; [| exact (Hfalsy eq_refl)].
    rewrite Hq in Ht |- *. rewrite delayMinutes_trusted by exact Ht.
    exists q. split; [reflexivity | exact Hle].
Qed.

End DelayFacts.

Lemma departure_delay_witness :
  delay departure_late_record = JNum (inject_Z 4) /\
  nonneg_minutes (delay departure_late_record).
Proof.
  destruct (departure_delay Date_iso_local departure_late departure_late_record eq_refl)
    as (_ & Hre & Hnn).
  split; [exact (Hre eq_refl) | apply Hnn; left; reflexivity].
Defined.

(** ** Order of the stations of a proximity search *)

Section NearbyFacts.

Variable ToNumber_other : json -> number.

(** C10, at the input on which the code departs from it.  The first
    station carries a distance, so the list is sorted; but a distance of
    0 is falsy and the comparator reads it as Infinity, so the station
    at distance 0 stays behind the station at distance 5, and is ranked
    with the stations that have no distance. *)
Theorem zero_distance_ranked_last :
  sort_by_distance ToNumber_other stations_5_then_0 = stations_5_then_0 /\
  sort_by_distance ToNumber_other
    [station_at (Some (JNum 0)); station_at None; station_at (Some (JNum 5))]
  = [station_at (Some (JNum 5)); station_at (Some (JNum 0)); station_at None] /\
  nearby_process ToNumber_other payload_5_then_0 = Ok (Proceed stations_5_then_0).
Proof. repeat split; reflexivity. Qed.













Lemma sort_by_distance_untouched (first : station) (rest : list station) :
  distance first = None ->
  sort_by_distance ToNumber_other (first :: rest) = first :: rest.
Proof. intros H. unfold sort_by_distance. rewrite H. reflexivity. Qed.


End NearbyFacts.

(* ===================================================================== *)
(** * Further properties of the transport routes *)
(* ===================================================================== *)

(** ** The cache *)

(** On a connection that is ready and accepts commands, what
    [setInCache] stores under a key is what [getFromCache] returns for
    that key, and the entries under other keys are not affected. *)
Lemma cache_set_then_get (c : RedisClient) (key value : string) (ttl : Z) :
  isReady c = true -> get_fails c = false -> set_fails c = false ->
  getFromCache (setInCache c key value ttl) key = Some value /\
  (forall other : string,
     other <> key ->
     getFromCache (setInCache c key value ttl) other = getFromCache c other).
Proof.
  intros Hready Hget Hset.
  unfold setInCache, redis_set. rewrite Hready, Hset. cbn [negb].
  unfold getFromCache, redis_get. cbn [isReady get_fails entries].
  rewrite Hready, Hget. cbn [negb find_entry].
  split.
  - rewrite String.eqb_refl. reflexivity.
  - intros other Hne. apply String.eqb_neq in Hne. rewrite Hne. reflexivity.
Qed.

Section CacheDiscipline.

Variable A : Type.
Variable JSON_stringify : A -> string.
Variable JSON_parse : string -> result json.
Variable process : json -> result (verdict A).
Variable on_error : exn -> response A.
Variable ttl : Z.

(** A query that misses a healthy cache and ends with a fresh result
    stores it, so that the same query asked again is answered from the
    cache with that stored text, whatever the provider would answer the
    second time. *)
Theorem query_twice_served_from_cache (c : RedisClient) (key : string)
  (fetch again : result json) (data : A) :
  isReady c = true -> get_fails c = false -> set_fails c = false ->
  cache_hit (getFromCache c key) = None ->
  bind fetch process = Ok (Proceed data) ->
  JSON_stringify data <> EmptyString ->
  let first := query JSON_stringify JSON_parse process on_error ttl c key fetch in
  fst first = Fresh data /\
  fst (query JSON_stringify JSON_parse process on_error ttl (snd first) key again)
  = match JSON_parse (JSON_stringify data) with
    | Ok cached => FromCache cached
    | Throw e => on_error e
    end.
Proof.
  intros Hready Hget Hset Hmiss Hfresh Htext first.
  assert (Hfirst : first
                   = (Fresh data, setInCache c key (JSON_stringify data) ttl)).
  { unfold first, query. rewrite Hmiss, Hfresh. reflexivity. }
  rewrite Hfirst. cbn [fst snd]. split; [reflexivity |].
  unfold query.
  destruct (cache_set_then_get c key (JSON_stringify data) ttl Hready Hget Hset)
    as [Hstored _].
  rewrite Hstored. unfold cache_hit, truthy_text.
  apply String.eqb_neq in Htext. rewrite Htext.
  destruct (JSON_parse (JSON_stringify data)); reflexivity.
Qed.

(** Only a fresh result is ever written to the cache: after a cache
    hit, an early rejection (ambiguous location, stop not found) or an
    exception, the cache is what it was. *)
Theorem query_writes_only_fresh (c : RedisClient) (key : string)
  (fetch : result json) :
  let out := query JSON_stringify JSON_parse process on_error ttl c key fetch in
  (forall data, fst out <> Fresh data) -> snd out = c.
Proof.
  intros out Hnot. unfold out in *. unfold query in *.
  destruct (cache_hit (getFromCache c key)) as [text|].
  - destruct (JSON_parse text); reflexivity.
  - destruct (bind fetch process) as [[st code msg | data] | e];
      try reflexivity.
    exfalso. exact (Hnot data eq_refl).
Qed.

End CacheDiscipline.

Lemma query_twice_served_from_cache_witness :
  fst (query (fun _ => "[]") (fun _ => Ok (JArr []))
         (route_process Date_iso_local) route_catch 300
         (snd (query (fun _ => "[]") (fun _ => Ok (JArr []))
                 (route_process Date_iso_local) route_catch 300
                 redis_ready "transport:route:Bozen:Meran" (Ok payload_no_trips)))
         "transport:route:Bozen:Meran" (Throw OtherError))
  = FromCache (JArr []).
Proof.
  apply (query_twice_served_from_cache (list route) (fun _ => "[]")
           (fun _ => Ok (JArr [])) (route_process Date_iso_local) route_catch 300
           redis_ready "transport:route:Bozen:Meran" (Ok payload_no_trips)
           (Throw OtherError) []); try reflexivity.
  discriminate.
Defined.

Lemma query_writes_only_fresh_witness :
  snd (query (fun _ : list route => "[]") (fun _ => Ok (JArr []))
         (route_process Date_iso_local) route_catch 300
         redis_ready "transport:route:Bozen:Meran"
         (Ok (JObj payload_ambiguous_origin)))
  = redis_ready.
Proof.
  apply (query_writes_only_fresh (list route) (fun _ => "[]")
           (fun _ => Ok (JArr [])) (route_process Date_iso_local) route_catch 300
           redis_ready "transport:route:Bozen:Meran"
           (Ok (JObj payload_ambiguous_origin))).
  intros data. vm_compute. discriminate.
Defined.

(** ** Technical errors *)

Section TechnicalErrorFacts.

Variable new_Date : string -> Date.

(** A payload with a truthy top-level [error] that can be converted to
    text is answered 502 by the route handler when its trip-request
    message list can be logged, whatever else it holds (trips, ambiguity
    codes); and by the departures handler when its messages can be
    logged and the stop-unknown check returns false.  When the error
    cannot be converted to text, the template literal of the thrown
    error raises and the answer is the generic 500 instead. *)
Theorem technical_error_is_502 (fields : list (string * json)) (error : json) :
  lookup "error" fields = Some error ->
  truthy_json error = true ->
  (loggable (lookup "itdMessageList" fields) ->
   route_reply new_Date (Ok (JObj fields))
   = if ToString_raises error
     then Fail 500 None (JStr "Route konnte nicht berechnet werden.")
     else Fail 502 None (JStr "Fehler bei der Kommunikation mit dem Fahrplandienst.")) /\
  (loggable (or_val (lookup "message" fields)
               (get_opt (lookup "departureMonitor" fields) "message")) ->
   stopNotFound (get_opt (lookup "departureMonitor" fields) "message") = Ok false ->
   departures_reply new_Date (Ok (JObj fields))
   = if ToString_raises error
     then Fail 500 None (JStr "Abfahrtszeiten konnten nicht abgerufen werden.")
     else Fail 502 None (JStr "Fehler bei Kommunikation mit EFA.")).
Proof.
  intros Herror Herr.
  assert (Htruthy : truthy (lookup "error" fields) = true)
    by (rewrite Herror; exact Herr).
  split.
  - intros Hlog. unfold route_reply, query_uncached, route_process.
    cbn [bind get get_opt]. unfold loggable in Hlog. rewrite Hlog. cbn [bind].
    rewrite Htruthy, Herror. unfold EFA_API_Error.
    destruct (ToString_raises error); reflexivity.
  - intros Hlog Hstop. unfold departures_reply, query_uncached, departures_process.
    cbn [bind get get_opt]. unfold loggable in Hlog. cbn [get_opt] in Hlog, Hstop.
    rewrite Hlog. cbn [bind]. rewrite Hstop. cbn [bind].
    rewrite Htruthy, Herror. unfold EFA_API_Error.
    destruct (ToString_raises error); reflexivity.
Qed.

End TechnicalErrorFacts.

Lemma technical_error_is_502_witness :
  route_reply Date_iso_local (Ok (JObj payload_ambiguous_with_error))
  = Fail 502 None (JStr "Fehler bei der Kommunikation mit dem Fahrplandienst.") /\
  departures_reply Date_iso_local (Ok (JObj payload_ambiguous_with_error))
  = Fail 502 None (JStr "Fehler bei Kommunikation mit EFA.").
Proof.
  destruct (technical_error_is_502 Date_iso_local payload_ambiguous_with_error
              (JStr "internal error") eq_refl eq_refl)
    as [Hroute Hdep].
  split; [apply Hroute | apply Hdep]; reflexivity.
Defined.

(** ** Routes and their segments *)

Section RouteFacts.

Variable new_Date : string -> Date.

Lemma process_legs_segments (legs : list json) :
  forall (acc acc' : totals) (done segs : list segment),
    process_legs new_Date legs acc done = Ok (acc', segs) ->
    exists added,
      segs = (done ++ added)%list /\
      Forall2 (fun leg seg => build_segment new_Date leg = Ok seg) legs added.
Proof.
  induction legs as [| leg rest IH]; intros acc acc' done segs H.
  - simpl in H. injection H as <- <-. exists []. rewrite app_nil_r.
    split; [reflexivity | constructor].
  - simpl in H. destruct (build_segment new_Date leg) as [seg | e] eqn:Hseg;
      simpl in H; [| discriminate].
    destruct (IH _ _ _ _ H) as (added & -> & Hall).
    exists (seg :: added). rewrite <- app_assoc.
    split; [reflexivity | constructor; assumption].
Qed.

(** The segments of a route are the segments of the legs of its trip,
    one for one and in the order of the legs; a trip with no leg gives
    no route. *)
Theorem route_segments_follow_legs (trip : json) :
  (forall r : route,
     process_trip new_Date trip = Ok (Some r) ->
     Forall2 (fun leg seg => build_segment new_Date leg = Ok seg)
       (legsArray (get_opt (Some trip) "legs")) (segments r)) /\
  (trip <> JNull -> legsArray (get_opt (Some trip) "legs") = [] ->
   process_trip new_Date trip = Ok None).
Proof.
  split.
  - intros r H. unfold process_trip in H.
    destruct (get trip "duration") as [trip_duration | e]; simpl in H;
      [| discriminate].
    destruct (get trip "interchanges") as [trip_interchanges | e]; simpl in H;
      [| discriminate].
    destruct (get trip "legs") as [legs | e] eqn:Hlegs; simpl in H; [| discriminate].
    rewrite <- (get_get_opt _ _ _ Hlegs).
    destruct (process_legs new_Date (legsArray legs) (0%Z, None) [])
      as [[[total previous] segs] | e] eqn:Hp; simpl in H; [| discriminate].
    destruct (process_legs_segments _ _ _ _ _ Hp) as (added & Hsegs & Hall).
    simpl in Hsegs. subst segs.
    destruct added as [| seg added]; [discriminate |].
    injection H as <-. exact Hall.
  - intros Hnn Hnil. unfold process_trip.
    destruct trip; try congruence; cbn [get bind get_opt] in *;
      try rewrite Hnil; reflexivity.
Qed.

(** Every route the handler returns has at least one segment, and there
    are no more routes than trips. *)
Theorem routes_have_segments (trips : list json) (routes : list route) :
  process_trips new_Date trips = Ok routes ->
  Forall (fun r => segments r <> []) routes /\
  (List.length routes <= List.length trips)%nat.
Proof.
  revert routes. induction trips as [| trip rest IH]; intros routes H.
  - simpl in H. injection H as <-. split; [constructor | apply Nat.le_refl].
  - simpl in H.
    destruct (process_trip new_Date trip) as [r | e] eqn:Htrip; simpl in H;
      [| discriminate].
    destruct (process_trips new_Date rest) as [rs | e]; simpl in H; [| discriminate].
    destruct (IH rs eq_refl) as [Hall Hlen].
    injection H as <-. destruct r as [r|].
    + split; [| simpl; lia]. constructor; [| exact Hall].
      unfold process_trip in Htrip.
      destruct (get trip "duration"); simpl in Htrip; [| discriminate].
      destruct (get trip "interchanges"); simpl in Htrip; [| discriminate].
      destruct (get trip "legs"); simpl in Htrip; [| discriminate].
      destruct (process_legs new_Date _ _ _) as [[[total previous] segs] | e];
        simpl in Htrip; [| discriminate].
      destruct segs; [discriminate |].
      injection Htrip as <-. simpl. discriminate.
    + split; [exact Hall | simpl; lia].
Qed.

(** The duration carried by a segment that is not a walk is null or a
    whole number of minutes that is not negative, and it is null exactly
    when the leg's travel time is unavailable; a walk carries the
    provider's own duration whenever that is truthy. *)
Theorem segment_duration_shape (leg : json) (seg : segment) :
  build_segment new_Date leg = Ok seg ->
  (isWalk seg = false ->
     segmentDuration seg = num_or_null (travel_time (segment_times seg)) /\
     (segmentDuration seg = JNull \/
      exists m : Z, (0 <= m)%Z /\ segmentDuration seg = JNum (inject_Z m))) /\
  (isWalk seg = true ->
     forall v, get_opt (Some leg) "duration" = Some v -> truthy_json v = true ->
               segmentDuration seg = v).
Proof.
  unfold build_segment. intros H.
  destruct (get leg "points") as [points | e]; simpl in H; [| discriminate].
  destruct (extractCoords _) as [from | e]; simpl in H; [| discriminate].
  destruct (extractCoords _) as [to | e]; simpl in H; [| discriminate].
  injection H as <-.
  cbn [isWalk segmentDuration segment_times departureDateTime arrivalDateTime].
  set (departure := parseEfaDateTime new_Date (get_opt (first_point points) "dateTime")).
  set (arrival := parseEfaDateTime new_Date (get_opt (last_point points) "dateTime")).
  split.
  - intros Hwalk. rewrite Hwalk. unfold travel_time. cbn [fst snd].
    split; [reflexivity |].
    destruct (calculateDurationMinutes departure arrival) as [m|] eqn:Hm;
      [right | left; reflexivity].
    exists m. split; [| reflexivity].
    rewrite calculateDurationMinutes_instants in Hm.
    destruct (instant departure), (instant arrival); try discriminate.
    destruct (Z.ltb_spec (z0 - z) 0); [discriminate |].
    injection Hm as <-. apply Math_round_div_nonneg; lia.
  - intros Hwalk v Hv Ht. rewrite Hwalk.
    destruct leg; cbn [get_opt] in Hv; try discriminate.
    rewrite Hv. cbn [or_else]. rewrite Ht. reflexivity.
Qed.

End RouteFacts.

Lemma route_segments_follow_legs_witness :
  Forall2 (fun leg seg => build_segment Date_iso_local leg = Ok seg)
    [leg_timed; leg_walk] (segments route_one_timed_leg) /\
  process_trip Date_iso_local (JObj [("duration", JStr "00:10")]) = Ok None.
Proof.
  split.
  - apply (proj1 (route_segments_follow_legs Date_iso_local trip_one_timed_leg)
             route_one_timed_leg).
    vm_compute. reflexivity.
  - apply (proj2 (route_segments_follow_legs Date_iso_local
                    (JObj [("duration", JStr "00:10")]))).
    + discriminate.
    + reflexivity.
Defined.

Lemma routes_have_segments_witness :
  Forall (fun r => segments r <> []) [route_one_timed_leg] /\
  (List.length [route_one_timed_leg] <= List.length [trip_one_timed_leg; JObj []])%nat.
Proof.
  apply (routes_have_segments Date_iso_local [trip_one_timed_leg; JObj []]).
  vm_compute. reflexivity.
Defined.

Lemma segment_duration_shape_witness :
  segmentDuration segment_timed = JNum (inject_Z 10) /\
  segmentDuration segment_walk = JStr "3".
Proof.
  split.
  - destruct (segment_duration_shape Date_iso_local leg_timed segment_timed)
      as [Hride _]; [vm_compute; reflexivity |].
    destruct (Hride eq_refl) as [Heq _]. rewrite Heq. vm_compute. reflexivity.
  - destruct (segment_duration_shape Date_iso_local leg_walk segment_walk)
      as [_ Hwalk]; [vm_compute; reflexivity |].
    apply (Hwalk eq_refl (JStr "3")); reflexivity.
Defined.

(** ** Durations *)

(** The accumulated total is never negative, is at least the sum of the
    available travel times, and never exceeds that sum plus all the
    positive waits between adjacent legs. *)
Theorem total_duration_bounds (legs : list leg_times) :
  (0 <= sum_travel legs)%Z /\
  (sum_travel legs <= calculatedTotalDuration legs)%Z /\
  (calculatedTotalDuration legs <= sum_travel legs + sum_waits None legs)%Z.
Proof.
  assert (Hnn : forall o : option Date, forall leg : leg_times,
             (0 <= if_positive (waiting_time o leg))%Z).
  { intros o leg. unfold if_positive. destruct (waiting_time o leg) as [w|]; [| lia].
    destruct (Z.ltb_spec 0 w); lia. }
  assert (Htravel : forall l : list leg_times, (0 <= sum_travel l)%Z).
  { induction l as [| leg rest IH]; simpl; [lia |].
    unfold if_available, travel_time.
    destruct (calculateDurationMinutes (fst leg) (snd leg)) as [m|] eqn:Hm; [| lia].
    rewrite calculateDurationMinutes_instants in Hm.
    destruct (instant (fst leg)), (instant (snd leg)); try discriminate.
    destruct (Z.ltb_spec (z0 - z) 0); [discriminate |].
    injection Hm as <-.
    pose proof (Math_round_div_nonneg (z0 - z) 60000 ltac:(lia) ltac:(lia)). lia. }
  assert (Hwaits : forall (l : list leg_times) (o : option Date),
             (0 <= counted_waits o l <= sum_waits o l)%Z).
  { induction l as [| leg rest IH]; intros o; simpl; [lia |].
    specialize (IH (snd leg)). specialize (Hnn o leg).
    destruct (travel_time leg); lia. }
  unfold calculatedTotalDuration. rewrite fold_add_leg.
  specialize (Htravel legs). specialize (Hwaits legs None). lia.
Qed.

(** Between instants that fall on whole minutes the duration is exact,
    so it is 0 from an instant to itself and durations add up along a
    chain of instants in order. *)
Theorem duration_of_whole_minutes (a b c : Z) :
  (a <= b)%Z -> (b <= c)%Z ->
  calculateDurationMinutes (at_ms (60000 * a)) (at_ms (60000 * b)) = Some (b - a)%Z /\
  calculateDurationMinutes (at_ms (60000 * a)) (at_ms (60000 * a)) = Some 0%Z /\
  (exists ab bc ac : Z,
     calculateDurationMinutes (at_ms (60000 * a)) (at_ms (60000 * b)) = Some ab /\
     calculateDurationMinutes (at_ms (60000 * b)) (at_ms (60000 * c)) = Some bc /\
     calculateDurationMinutes (at_ms (60000 * a)) (at_ms (60000 * c)) = Some ac /\
     ac = (ab + bc)%Z).
Proof.
  intros Hab Hbc.
  assert (Hexact : forall x y : Z, (x <= y)%Z ->
            calculateDurationMinutes (at_ms (60000 * x)) (at_ms (60000 * y))
            = Some (y - x)%Z).
  { intros x y Hxy. rewrite calculateDurationMinutes_instants. cbn [instant at_ms getTime].
    destruct (Z.ltb_spec (60000 * y - 60000 * x) 0); [lia |].
    f_equal. unfold Math_round_div.
    symmetry. apply (Z.div_unique _ _ _ 60000); lia. }
  split; [apply Hexact; exact Hab |].
  split; [rewrite (Hexact a a ltac:(lia)); f_equal; lia |].
  exists (b - a)%Z, (c - b)%Z, (c - a)%Z.
  repeat split; try (apply Hexact; lia). lia.
Qed.

Lemma duration_of_whole_minutes_witness :
  calculateDurationMinutes (at_ms (60000 * 600)) (at_ms (60000 * 615)) = Some (615 - 600)%Z.
Proof.
  apply (duration_of_whole_minutes 600 615 630); lia.
Defined.

(** ** Where the helpers raise *)

(** [extractCoords] raises only a TypeError, and exactly when [coords]
    is truthy without being a string; on a missing reference or a
    missing or empty [coords] it returns null. *)
Theorem extractCoords_raises_iff (pointRef : jsval) :
  (forall e, extractCoords pointRef = Throw e <->
             e = TypeError /\
             truthy (get_opt pointRef "coords") = true /\
             as_string (get_opt pointRef "coords") = None) /\
  (truthy (get_opt pointRef "coords") = false -> extractCoords pointRef = Ok None).
Proof.
  unfold extractCoords. split.
  - intros e. destruct (truthy (get_opt pointRef "coords")) eqn:Ht; cbn [negb].
    + destruct (get_opt pointRef "coords") as [[| b | q | s | items | fields]|];
        cbn [as_string]; try discriminate; split;
        try (intros [= <-]; repeat split; reflexivity);
        try (intros (-> & _ & _); reflexivity);
        try (intros (_ & _ & H); discriminate H).
      all: destruct (split "," s) as [| p0 [| p1 [| p2 ps]]];
        try discriminate;
        destruct (negb (isNaN (parseFloat p1)) && negb (isNaN (parseFloat p0)));
        discriminate.
    + split; [discriminate | intros (_ & H & _); discriminate H].
  - intros Ht. rewrite Ht. reflexivity.
Qed.

(** [logEfaMessages] raises only a TypeError, and exactly when the
    message data is a list that has a null entry or an entry whose
    [text] is truthy and cannot be converted to text (an object with
    its own [toString], or an array that holds one), or a single object
    whose [text] is truthy without being a string. *)
Theorem logEfaMessages_raises_iff (messageData : jsval) (e : exn) :
  logEfaMessages messageData = Throw e <->
  e = TypeError /\
  ((exists items,
      messageData = Some (JArr items) /\
      (In JNull items \/
       exists m text,
         In m items /\ get_opt (Some m) "text" = Some text /\
         truthy_json text = true /\ ToString_raises text = true)) \/
   (exists fields text,
      messageData = Some (JObj fields) /\ lookup "text" fields = Some text /\
      truthy_json text = true /\ as_string (Some text) = None)).
Proof.
  unfold logEfaMessages.
  destruct messageData as [[| b | q | s | items | fields]|]; cbn [truthy truthy_json negb].
  - split; [discriminate | intros (_ & [(l & H & _) | (f & t & H & _)]); discriminate H].
  - destruct b; cbn [negb];
      (split; [discriminate | intros (_ & [(l & H & _) | (f & t & H & _)]); discriminate H]).
  - destruct (Qeq_bool q 0); cbn [negb];
      (split; [discriminate | intros (_ & [(l & H & _) | (f & t & H & _)]); discriminate H]).
  - destruct (String.eqb s ""); cbn [negb];
      (split; [discriminate | intros (_ & [(l & H & _) | (f & t & H & _)]); discriminate H]).
  - destruct (existsb is_null items || existsb unprintable_text items) eqn:He; split.
    + intros [= <-]. split; [reflexivity |]. left. exists items.
      split; [reflexivity |]. apply orb_true_iff in He.
      destruct He as [He | He]; apply existsb_exists in He;
        destruct He as (x & Hin & Hx).
      * left. destruct x; try discriminate. exact Hin.
      * right. unfold unprintable_text in Hx.
        destruct (get_opt (Some x) "text") as [text|] eqn:Ht; [| discriminate].
        apply andb_true_iff in Hx. destruct Hx as [Htr Hr].
        exists x, text. repeat split; assumption.
    + intros (-> & _). reflexivity.
    + discriminate.
    + intros (_ & [(l & [= <-] & Hcase) | (f & t & H & _)]); [| discriminate H].
      apply orb_false_iff in He. destruct He as [He1 He2].
      destruct Hcase as [Hin | (m & text & Hin & Ht & Htr & Hr)].
      * assert (Hn : existsb is_null items = true)
          by (apply existsb_exists; exists JNull; split; [exact Hin | reflexivity]).
        congruence.
      * assert (Hu : existsb unprintable_text items = true).
        { apply existsb_exists. exists m. split; [exact Hin |].
          unfold unprintable_text. rewrite Ht, Htr, Hr. reflexivity. }
        congruence.
  - destruct (lookup "text" fields) as [text|] eqn:Htext.
    + destruct text as [| b | q | s | items' | fields']; cbn [truthy_json];
        try (split; [discriminate
                    | intros (_ & [(l & H & _) | (f & t & [= <-] & Ht & Htr & Hs)]);
                      [discriminate H
                      | rewrite Htext in Ht; injection Ht as <-;
                        first [discriminate Htr | discriminate Hs]]]).
      * destruct b; split; try discriminate.
        -- intros [= <-]. split; [reflexivity |]. right.
           exists fields, (JBool true). repeat split; assumption.
        -- intros (-> & _). reflexivity.
        -- intros (_ & [(l & H & _) | (f & t & [= <-] & Ht & Htr & _)]);
             [discriminate H |].
           rewrite Htext in Ht. injection Ht as <-. discriminate Htr.
      * destruct (Qeq_bool q 0) eqn:Hq; cbn [negb]; split; try discriminate.
        -- intros (_ & [(l & H & _) | (f & t & [= <-] & Ht & Htr & _)]);
             [discriminate H |].
           rewrite Htext in Ht. injection Ht as <-. simpl in Htr.
           rewrite Hq in Htr. discriminate Htr.
        -- intros [= <-]. split; [reflexivity |]. right.
           exists fields, (JNum q). repeat split; try assumption.
           simpl. rewrite Hq. reflexivity.
        -- intros (-> & _). reflexivity.
      * split.
        -- intros [= <-]. split; [reflexivity |]. right.
           exists fields, (JArr items'). repeat split; assumption.
        -- intros (-> & _). reflexivity.
      * split.
        -- intros [= <-]. split; [reflexivity |]. right.
           exists fields, (JObj fields'). repeat split; assumption.
        -- intros (-> & _). reflexivity.
    + split; [discriminate |].
      intros (_ & [(l & H & _) | (f & t & [= <-] & Ht & _)]); [discriminate H |].
      rewrite Htext in Ht. discriminate Ht.
  - split; [discriminate | intros (_ & [(l & H & _) | (f & t & H & _)]); discriminate H].
Qed.

Lemma extractCoords_raises_iff_witness :
  extractCoords (Some (JObj [("coords", JNum 5)])) = Throw TypeError /\
  extractCoords (Some (JObj [("coords", JStr "")])) = Ok None.
Proof.
  destruct (extractCoords_raises_iff (Some (JObj [("coords", JNum 5)]))) as [Hiff _].
  destruct (extractCoords_raises_iff (Some (JObj [("coords", JStr "")]))) as [_ Hnull].
  split; [apply Hiff; repeat split; reflexivity | apply Hnull; reflexivity].
Defined.

Lemma logEfaMessages_raises_iff_witness :
  logEfaMessages (Some (JArr [JStr "Hinweis"; JNull])) = Throw TypeError /\
  logEfaMessages
    (Some (JArr [JObj [("text", JArr [JObj [("toString", JNum 1)]])]]))
  = Throw TypeError.
Proof.
  split.
  - apply (logEfaMessages_raises_iff (Some (JArr [JStr "Hinweis"; JNull])) TypeError).
    split; [reflexivity |]. left. eexists. split; [reflexivity |].
    left. right. left. reflexivity.
  - apply (logEfaMessages_raises_iff
             (Some (JArr [JObj [("text", JArr [JObj [("toString", JNum 1)]])]]))
             TypeError).
    split; [reflexivity |]. left. eexists. split; [reflexivity |].
    right. eexists. eexists. split; [left; reflexivity |].
    repeat split; reflexivity.
Defined.

(** ** Instants and clock times *)

Section InstantFacts.

Variable new_Date : string -> Date.

(** A fragment that lacks one of its five fields, or holds it as
    anything but text, gives no instant, whatever the host makes of the
    other fields; and since a result is never an invalid Date, the
    duration between two parsed instants is unavailable only when the
    second is earlier than the first. *)
Theorem parsed_instants_compare (v1 v2 : jsval) :
  ((exists field,
      In field ["year"; "month"; "day"; "hour"; "minute"] /\
      as_string (get_opt v1 field) = None) ->
   parseEfaDateTime new_Date v1 = None) /\
  (forall d1 d2 : Date,
     parseEfaDateTime new_Date v1 = Some d1 ->
     parseEfaDateTime new_Date v2 = Some d2 ->
     exists t1 t2 : Z,
       getTime d1 = Some t1 /\ getTime d2 = Some t2 /\
       (calculateDurationMinutes (Some d1) (Some d2) = None <-> (t2 < t1)%Z)).
Proof.
  split.
  - intros (field & Hin & Hnone). unfold parseEfaDateTime.
    destruct (truthy v1); cbn [negb]; [| reflexivity].
    simpl in Hin.
    destruct Hin as [<- | [<- | [<- | [<- | [<- | []]]]]]; rewrite Hnone;
      repeat match goal with
             | |- context [match ?x with Some _ => _ | None => _ end] =>
                 destruct x
             end; reflexivity.
  - intros d1 d2 H1 H2.
    destruct (parseEfaDateTime_valid new_Date v1 d1 H1) as [t1 Ht1].
    destruct (parseEfaDateTime_valid new_Date v2 d2 H2) as [t2 Ht2].
    simpl in Ht1, Ht2. exists t1, t2. split; [exact Ht1 |]. split; [exact Ht2 |].
    rewrite calculateDurationMinutes_instants. cbn [instant]. rewrite Ht1, Ht2.
    destruct (Z.ltb_spec (t2 - t1) 0); split; intros H'; try reflexivity;
      try discriminate; lia.
Qed.

End InstantFacts.

Lemma parsed_instants_compare_witness :
  parseEfaDateTime Date_iso_local
    (Some (JObj [("year", JStr "2024"); ("month", JStr "1"); ("day", JStr "5");
                 ("hour", JNum 10); ("minute", JStr "30")])) = None /\
  exists t1 t2 : Z,
    getTime (mkDate (Some 1704450600000%Z)) = Some t1 /\
    getTime (mkDate (Some 1704412800000%Z)) = Some t2 /\
    (calculateDurationMinutes (Some (mkDate (Some 1704450600000%Z)))
       (Some (mkDate (Some 1704412800000%Z))) = None <-> (t2 < t1)%Z).
Proof.
  split.
  - apply (proj1 (parsed_instants_compare Date_iso_local _ None)).
    exists "hour". split; [simpl; tauto | reflexivity].
  - apply (proj2 (parsed_instants_compare Date_iso_local
                    (fragment "2024" "1" "5" "10" "30")
                    (fragment "2024" "1" "5" "0" "0"))); reflexivity.
Defined.

(** For [n] from 0 to 59, [String(n).padStart(2, '0')] is the two
    decimal digits of [n]. *)
Lemma padStart2_two_digits (n : Z) :
  (0 <= n < 60)%Z ->
  padStart2 (String_of_int n)
  = String (ascii_of_nat (Z.to_nat (48 + n / 10)))
      (String (ascii_of_nat (Z.to_nat (48 + n mod 10))) EmptyString).
Proof.
  intros Hn.
  assert (Hk : exists k : nat, (k < 60)%nat /\ n = Z.of_nat k)
    by (exists (Z.to_nat n); lia).
  destruct Hk as (k & Hk & ->).
  do 60 (destruct k as [| k]; [reflexivity |]). lia.
Qed.

Lemma length_append (s1 s2 : string) :
  String.length (s1 ++ s2) = (String.length s1 + String.length s2)%nat.
Proof. induction s1 as [| c s1 IH]; simpl; [reflexivity | rewrite IH; reflexivity]. Qed.

Lemma padStart2_length (s : string) : (2 <= String.length (padStart2 s))%nat.
Proof.
  unfold padStart2. destruct s as [| a [| b s]]; simpl; lia.
Qed.

Section ClockFacts.

Variable getHours : Z -> Z.
Variable getMinutes : Z -> Z.

Lemma formatTime_length (jsDate : option Date) (text : string) :
  formatTime getHours getMinutes jsDate = Some text ->
  (5 <= String.length text)%nat.
Proof.
  unfold formatTime. destruct jsDate as [[[t|]]|]; cbn [getTime]; try discriminate.
  intros [= <-]. rewrite !length_append.
  pose proof (padStart2_length (String_of_int (getHours t))).
  pose proof (padStart2_length (String_of_int (getMinutes t))).
  simpl. lia.
Qed.

Lemma formatTime_None (jsDate : option Date) :
  formatTime getHours getMinutes jsDate = None <-> instant jsDate = None.
Proof.
  unfold formatTime, instant.
  destruct jsDate as [[[t|]]|]; cbn [getTime]; split; congruence.
Qed.

(** [formatTime] gives null exactly for null and for an invalid Date;
    for any other Date, whose hour and minute the host reports within
    0..23 and 0..59, it gives the five characters [HH:MM] with the two
    digits of the hour and of the minute. *)
Theorem formatTime_shape (jsDate : option Date) :
  (formatTime getHours getMinutes jsDate = None <-> instant jsDate = None) /\
  (forall t : Z,
     instant jsDate = Some t ->
     (0 <= getHours t < 24)%Z -> (0 <= getMinutes t < 60)%Z ->
     formatTime getHours getMinutes jsDate
     = Some (String (ascii_of_nat (Z.to_nat (48 + getHours t / 10)))
               (String (ascii_of_nat (Z.to_nat (48 + getHours t mod 10)))
                  (String ":"
                     (String (ascii_of_nat (Z.to_nat (48 + getMinutes t / 10)))
                        (String (ascii_of_nat (Z.to_nat (48 + getMinutes t mod 10)))
                           EmptyString)))))).
Proof.
  split; [apply formatTime_None |].
  unfold formatTime, instant.
  - intros t Ht Hh Hm. destruct jsDate as [[[t'|]]|]; cbn [getTime] in *;
      try discriminate.
    injection Ht as ->.
    rewrite (padStart2_two_digits (getHours t)) by lia.
    rewrite (padStart2_two_digits (getMinutes t)) by lia.
    reflexivity.
Qed.

Lemma formatTime_not_empty (jsDate : option Date) :
  truthy_text (formatTime getHours getMinutes jsDate)
  = formatTime getHours getMinutes jsDate.
Proof.
  destruct (formatTime getHours getMinutes jsDate) as [text|] eqn:Hf; [| reflexivity].
  apply formatTime_length in Hf. unfold truthy_text.
  destruct text; [simpl in Hf; lia | reflexivity].
Qed.

(** In a departure record the [time] is the scheduled clock time, or
    "N/A" when there is no scheduled instant, and is never empty; the
    [realTime] is null when there is no real-time instant or when its
    clock time equals the scheduled one, and otherwise is the real-time
    clock time, so a [realTime] that is present always differs from
    [time]. *)
Theorem departure_clock_fields (scheduled real : option Date) :
  (departure_time getHours getMinutes scheduled
   = match formatTime getHours getMinutes scheduled with
     | Some text => JStr text
     | None => JStr "N/A"
     end) /\
  departure_time getHours getMinutes scheduled <> JStr EmptyString /\
  (instant real = None ->
   departure_realTime getHours getMinutes scheduled real = JNull) /\
  (forall text : string,
     departure_realTime getHours getMinutes scheduled real = JStr text ->
     formatTime getHours getMinutes real = Some text /\
     departure_time getHours getMinutes scheduled <> JStr text).
Proof.
  assert (Htime : departure_time getHours getMinutes scheduled
                  = match formatTime getHours getMinutes scheduled with
                    | Some text => JStr text
                    | None => JStr "N/A"
                    end).
  { unfold departure_time. rewrite formatTime_not_empty. reflexivity. }
  split; [exact Htime |]. split; [| split].
  - rewrite Htime. pose proof (formatTime_not_empty scheduled) as Hne.
    destruct (formatTime getHours getMinutes scheduled) as [text|]; [| discriminate].
    intros [= ->]. discriminate Hne.
  - intros Hreal. unfold departure_realTime.
    assert (Hf : formatTime getHours getMinutes real = None)
      by (apply formatTime_None; exact Hreal).
    rewrite Hf. reflexivity.
  - intros text H. unfold departure_realTime in H.
    rewrite formatTime_not_empty in H. rewrite Htime.
    destruct (formatTime getHours getMinutes real) as [realTime|] eqn:Hr;
      [| discriminate].
    destruct (formatTime getHours getMinutes scheduled) as [scheduledTime|].
    + destruct (String.eqb realTime scheduledTime) eqn:Heq; [discriminate |].
      injection H as <-. split; [reflexivity |].
      apply String.eqb_neq in Heq. congruence.
    + injection H as <-. split; [reflexivity |].
      intros [= Hna]. apply formatTime_length in Hr.
      rewrite <- Hna in Hr. simpl in Hr. lia.
Qed.

End ClockFacts.

Lemma formatTime_shape_witness :
  formatTime getHours_utc getMinutes_utc (Some (mkDate (Some 1704443700000%Z)))
  = Some "08:35".
Proof.
  apply (proj2 (formatTime_shape getHours_utc getMinutes_utc
                  (Some (mkDate (Some 1704443700000%Z)))) 1704443700000%Z eq_refl);
    vm_compute; split; congruence.
Defined.

Lemma departure_clock_fields_witness :
  departure_realTime getHours_utc getMinutes_utc
    (Some (mkDate (Some 1704450600000%Z))) (Some (mkDate None)) = JNull /\
  departure_time getHours_utc getMinutes_utc (Some (mkDate (Some 1704450600000%Z)))
  <> JStr "10:34".
Proof.
  destruct (departure_clock_fields getHours_utc getMinutes_utc
              (Some (mkDate (Some 1704450600000%Z))) (Some (mkDate None)))
    as (_ & _ & Hnone & _).
  destruct (departure_clock_fields getHours_utc getMinutes_utc
              (Some (mkDate (Some 1704450600000%Z)))
              (Some (mkDate (Some 1704450840000%Z))))
    as (_ & _ & _ & Hdiff).
  split; [apply Hnone; reflexivity |].
  apply (Hdiff "10:34"). reflexivity.
Defined.

(** ** Departures *)

Section DepartureFacts.

Variable new_Date : string -> Date.

Lemma build_departures_each (deps : list json) :
  forall ds : list departure,
    build_departures new_Date deps = Ok ds ->
    Forall2 (fun dep d => build_departure new_Date dep = Ok d) deps ds.
Proof.
  induction deps as [| dep rest IH]; intros ds H; simpl in H.
  - injection H as <-. constructor.
  - destruct (build_departure new_Date dep) as [d | e] eqn:Hd; simpl in H;
      [| discriminate].
    destruct (build_departures new_Date rest) as [ds' | e]; simpl in H;
      [| discriminate].
    injection H as <-. constructor; [exact Hd | apply IH; reflexivity].
Qed.

(** A fresh departures reply lists one record per entry of the
    provider's departure list, in the provider's order, and only payloads
    without a truthy [error] get one; a payload with no message, no
    error and no departure list is answered with the empty list, not
    with an error. *)
Theorem departures_follow_the_list (fields : list (string * json)) :
  (forall ds : list departure,
     departures_reply new_Date (Ok (JObj fields)) = Fresh ds ->
     truthy (lookup "error" fields) = false /\
     Forall2 (fun dep d => build_departure new_Date dep = Ok d)
       (departureListArray (lookup "departureList" fields)) ds) /\
  (lookup "message" fields = None ->
   get_opt (lookup "departureMonitor" fields) "message" = None ->
   truthy (lookup "error" fields) = false ->
   truthy (lookup "departureList" fields) = false ->
   departures_reply new_Date (Ok (JObj fields)) = Fresh []).
Proof.
  unfold departures_reply, query_uncached, departures_process.
  cbn [bind get get_opt]. split.
  - intros ds H.
    destruct (logEfaMessages _) as [[] | e]; cbn [bind] in H;
      [| unfold departures_catch in H; discriminate].
    destruct (stopNotFound _) as [[|] | e]; cbn [bind] in H;
      try (unfold departures_catch in H; discriminate).
    destruct (truthy (lookup "error" fields)); cbn [bind] in H;
      [unfold departures_catch in H; discriminate |].
    split; [reflexivity |].
    destruct (build_departures new_Date _) as [ds' | e] eqn:Hb; cbn [bind] in H;
      [| unfold departures_catch in H; discriminate].
    injection H as <-. apply build_departures_each. exact Hb.
  - intros Hmsg Hdm Herr Hlist. rewrite Hmsg, Hdm. cbn.
    rewrite Herr. unfold departureListArray.
    destruct (lookup "departureList" fields) as [x|]; [| reflexivity].
    cbn [truthy] in Hlist. rewrite Hlist. reflexivity.
Qed.

(** When the departure-monitor message is a single object and the
    logging of line 497 returns, its numeric [code] decides: -3010 or
    -3011 gives the 404 "stop not found", also when the payload carries
    a technical error. *)
Theorem stop_not_found_single_message (fields message : list (string * json)) :
  get_opt (lookup "departureMonitor" fields) "message" = Some (JObj message) ->
  loggable (or_val (lookup "message" fields) (Some (JObj message))) ->
  is_num (lookup "code" message) (-3010) = true
  \/ is_num (lookup "code" message) (-3011) = true ->
  departures_reply new_Date (Ok (JObj fields))
  = Fail 404 None (JStr "Haltestelle nicht gefunden.").
Proof.
  intros Hmsg Hlog Hcode.
  unfold departures_reply, query_uncached, departures_process.
  cbn [bind get get_opt]. cbn [get_opt] in Hmsg. rewrite Hmsg.
  unfold loggable in Hlog. rewrite Hlog. cbn [bind stopNotFound].
  assert (Hor : is_num (lookup "code" message) (-3010)
                || is_num (lookup "code" message) (-3011) = true)
    by (destruct Hcode as [-> | ->]; [reflexivity | apply orb_true_r]).
  rewrite Hor. reflexivity.
Qed.

End DepartureFacts.

Lemma departures_follow_the_list_witness :
  departures_reply Date_iso_local (Ok (JObj [("parameters", JArr [])])) = Fresh [].
Proof.
  apply (proj2 (departures_follow_the_list Date_iso_local [("parameters", JArr [])]));
    reflexivity.
Defined.

Lemma stop_not_found_single_message_witness :
  departures_reply Date_iso_local (Ok (JObj payload_unknown_stop_object))
  = Fail 404 None (JStr "Haltestelle nicht gefunden.").
Proof.
  apply (stop_not_found_single_message Date_iso_local payload_unknown_stop_object
           [("code", JNum (-3011))]).
  - reflexivity.
  - reflexivity.
  - right. reflexivity.
Defined.

(** ** Station search by name *)

Section StripFacts.

Variable space2 : ascii -> ascii -> bool.
Variable space3 : ascii -> ascii -> ascii -> bool.

Lemma strip_space_suffix (l rest : list ascii) :
  strip_space space2 space3 l = Some rest ->
  exists front, front <> [] /\ l = (front ++ rest)%list.
Proof.
  unfold strip_space. destruct l as [| a [| b [| c r3]]]; try discriminate;
    destruct (is_white_space a); try discriminate;
    try (intros [= <-]; exists [a]; split; [discriminate | reflexivity]);
    destruct (space2 a b); try discriminate;
    try (intros [= <-]; exists [a; b]; split; [discriminate | reflexivity]).
  destruct (space3 a b c); [| discriminate].
  intros [= <-]. exists [a; b; c]. split; [discriminate | reflexivity].
Qed.

Lemma strip_space_shorter (l rest : list ascii) :
  strip_space space2 space3 l = Some rest ->
  (List.length rest < List.length l)%nat.
Proof.
  intros H. destruct (strip_space_suffix l rest H) as (front & Hne & ->).
  rewrite length_app. destruct front; [congruence | simpl; lia].
Qed.

(** Stripping looks at the first bytes only. *)
Lemma strip_space_app (l rest more : list ascii) :
  strip_space space2 space3 l = Some rest ->
  strip_space space2 space3 (l ++ more) = Some (rest ++ more)%list.
Proof.
  unfold strip_space. destruct l as [| a [| b [| c r3]]]; try discriminate;
    cbn [app]; destruct (is_white_space a); try discriminate;
    try (intros [= <-]; reflexivity);
    destruct (space2 a b); try discriminate;
    try (intros [= <-]; reflexivity).
  destruct (space3 a b c); [| discriminate].
  intros [= <-]. reflexivity.
Qed.

Lemma strip_spaces_clean (fuel : nat) :
  forall l : list ascii,
    (List.length l <= fuel)%nat ->
    strip_space space2 space3 (strip_spaces space2 space3 fuel l) = None.
Proof.
  induction fuel as [| fuel IH]; intros l Hl.
  - destruct l; [reflexivity | simpl in Hl; lia].
  - cbn [strip_spaces]. destruct (strip_space space2 space3 l) as [rest|] eqn:Hs;
      [| exact Hs].
    apply IH. pose proof (strip_space_shorter l rest Hs). lia.
Qed.

Lemma strip_spaces_fixed (fuel : nat) (l : list ascii) :
  strip_space space2 space3 l = None -> strip_spaces space2 space3 fuel l = l.
Proof. intros H. destruct fuel; [reflexivity |]. cbn [strip_spaces]. rewrite H. reflexivity. Qed.

Lemma strip_spaces_suffix (fuel : nat) :
  forall l : list ascii,
    exists front, l = (front ++ strip_spaces space2 space3 fuel l)%list.
Proof.
  induction fuel as [| fuel IH]; intros l; [exists []; reflexivity |].
  cbn [strip_spaces]. destruct (strip_space space2 space3 l) as [rest|] eqn:Hs;
    [| exists []; reflexivity].
  destruct (strip_space_suffix l rest Hs) as (front & _ & ->).
  destruct (IH rest) as [front' Hrest].
  exists (front ++ front')%list. rewrite <- app_assoc, <- Hrest. reflexivity.
Qed.

End StripFacts.

Lemma trim_idempotent (s : string) : trim (trim s) = trim s.
Proof.
  unfold trim. rewrite list_ascii_of_string_of_list_ascii. f_equal.
  set (l1 := trim_start (list_ascii_of_string s)).
  assert (H1 : strip_space is_space2 is_space3 l1 = None)
    by (apply strip_spaces_clean; apply Nat.le_refl).
  unfold trim_end at 2.
  set (back := strip_spaces (fun b a => is_space2 a b) (fun c b a => is_space3 a b c)
                 (List.length l1) (rev l1)).
  assert (Hb : strip_space (fun b a => is_space2 a b) (fun c b a => is_space3 a b c) back
               = None)
    by (apply strip_spaces_clean; rewrite length_rev; apply Nat.le_refl).
  destruct (strip_spaces_suffix (fun b a => is_space2 a b) (fun c b a => is_space3 a b c)
              (List.length l1) (rev l1)) as [front Hfront].
  fold back in Hfront.
  assert (Hl1 : l1 = (rev back ++ rev front)%list)
    by (rewrite <- rev_app_distr, <- Hfront, rev_involutive; reflexivity).
  assert (H2 : strip_space is_space2 is_space3 (rev back) = None).
  { destruct (strip_space is_space2 is_space3 (rev back)) as [rest|] eqn:Hs;
      [| reflexivity].
    pose proof (strip_space_app is_space2 is_space3 _ _ (rev front) Hs) as Happ.
    rewrite <- Hl1, H1 in Happ. discriminate Happ. }
  unfold trim_start. rewrite (strip_spaces_fixed _ _ _ _ H2).
  unfold trim_end. rewrite rev_involutive, (strip_spaces_fixed _ _ _ _ Hb).
  reflexivity.
Qed.

(** A name with a letter beyond ASCII counts one per character, and a
    trailing no-break space (bytes 194 and 160) is stripped. *)
Example trim_and_length_beyond_ascii :
  utf16_length "Mü" = 2%nat /\
  trim (" Bo" ++ String "194" (String "160" EmptyString)) = "Bo" /\
  trim "Bo zen " = "Bo zen".
Proof. repeat split; reflexivity. Qed.

Section StationFacts.

Variable ToString : jsval -> string.
Variable JSON_stringify : list named_station -> string.
Variable JSON_parse : string -> result json.

(** A search text shorter than three UTF-16 code units once trimmed
    is rejected with 400 and neither the cache nor the provider is
    consulted; a longer one is looked up under its trimmed form, so a
    text and its trimmed form of three code units or more get the same
    answer from the same cache entry. *)
Theorem stations_query_is_trimmed (c : RedisClient) (q : string)
  (fetch : result json) :
  ((utf16_length (trim q) < 3)%nat ->
   stations_handler ToString JSON_stringify JSON_parse c (Some q) fetch
   = (Fail 400 None
        (JStr "Suchbegriff fehlt oder ist zu kurz (mind. 3 Zeichen)."), c)) /\
  ((3 <= utf16_length (trim q))%nat ->
   stations_handler ToString JSON_stringify JSON_parse c (Some q) fetch
   = stations_handler ToString JSON_stringify JSON_parse c (Some (trim q)) fetch /\
   stations_handler ToString JSON_stringify JSON_parse c (Some q) fetch
   = query JSON_stringify JSON_parse (stations_process ToString) stations_catch 3600 c
       ("transport:stations:" ++ trim q) fetch).
Proof.
  assert (Hq : forall t : string, (3 <= utf16_length (trim t))%nat ->
                 truthy_text (Some t) = Some t).
  { intros t Ht. unfold truthy_text. destruct t; [| reflexivity].
    vm_compute in Ht. lia. }
  split.
  - intros Hshort. unfold stations_handler.
    destruct (truthy_text (Some q)) as [q'|] eqn:Hq'; [| reflexivity].
    unfold truthy_text in Hq'. destruct (String.eqb q ""); [discriminate |].
    injection Hq' as <-.
    destruct (Z.ltb_spec (Z.of_nat (utf16_length (trim q))) 3); [reflexivity | lia].
  - intros Hlong.
    assert (Hmain :
      stations_handler ToString JSON_stringify JSON_parse c (Some q) fetch
      = query JSON_stringify JSON_parse (stations_process ToString) stations_catch
          3600 c ("transport:stations:" ++ trim q) fetch).
    { unfold stations_handler. rewrite (Hq q Hlong).
      destruct (Z.ltb_spec (Z.of_nat (utf16_length (trim q))) 3); [lia | reflexivity]. }
    split; [| exact Hmain].
    rewrite Hmain. unfold stations_handler.
    rewrite (Hq (trim q)) by (rewrite trim_idempotent; exact Hlong).
    rewrite trim_idempotent.
    destruct (Z.ltb_spec (Z.of_nat (utf16_length (trim q))) 3); [lia | reflexivity].
Qed.

Lemma or_else_truthy (a : jsval) (b : json) :
  truthy_json b = true -> truthy_json (or_else a b) = true.
Proof.
  intros Hb. unfold or_else. destruct a as [j|]; [| exact Hb].
  destruct (truthy_json j) eqn:Hj; [exact Hj | exact Hb].
Qed.

Lemma or_else_falsy (a b : jsval) (g : json) :
  truthy a = false -> truthy b = false -> or_else a (or_else b g) = g.
Proof.
  intros Ha Hb. unfold or_else.
  destruct a as [x|]; cbn [truthy] in Ha; try rewrite Ha;
    (destruct b as [y|]; cbn [truthy] in Hb; try rewrite Hb; reflexivity).
Qed.

Lemma extractCoords_total_on_text (ref : jsval) :
  truthy (get_opt ref "coords") = false \/
  (exists text, get_opt ref "coords" = Some (JStr text)) ->
  exists r, extractCoords ref = Ok r.
Proof.
  unfold extractCoords. intros [Hf | [text Ht]].
  - rewrite Hf. eexists. reflexivity.
  - rewrite Ht. destruct (negb (truthy (Some (JStr text)))); [eexists; reflexivity |].
    destruct (split "," text) as [| p0 [| p1 [| p2 ps]]]; try (eexists; reflexivity).
    destruct (negb (isNaN (parseFloat p1)) && negb (isNaN (parseFloat p0)));
      eexists; reflexivity.
Qed.

(** Every station built has a truthy identifier, name, locality and
    type: the provider's value when it is truthy, and otherwise the
    generated identifier (which begins with [gen_]) or the default
    text. *)
Theorem named_station_fields_present (point : json) (st : named_station) :
  build_named_station ToString point = Ok st ->
  truthy_json (station_id st) = true /\
  truthy_json (station_name st) = true /\
  truthy_json (station_locality st) = true /\
  truthy_json (station_type st) = true /\
  (truthy (get_opt (get_opt (Some point) "ref") "id") = false ->
   truthy (get_opt (Some point) "stateless") = false ->
   exists rest : string, station_id st = JStr ("gen_" ++ rest)).
Proof.
  unfold build_named_station. intros H.
  destruct (get point "ref") as [ref | e] eqn:Href; cbn [bind] in H; [| discriminate].
  destruct (extractCoords ref) as [coords | e]; cbn [bind] in H; [| discriminate].
  destruct (generated_id_raises point ref); [discriminate |].
  injection H as <-.
  cbn [station_id station_name station_locality station_type].
  repeat split; try (apply or_else_truthy; reflexivity).
  - apply or_else_truthy. apply or_else_truthy. reflexivity.
  - intros Hid Hstateless. rewrite <- (get_get_opt _ _ _ Href) in Hid.
    eexists.
    apply (or_else_falsy (get_opt ref "id") (get_opt (Some point) "stateless"));
      assumption.
Qed.

Lemma build_named_stations_each (points : list json) :
  forall sts : list named_station,
    build_named_stations ToString points = Ok sts ->
    Forall2 (fun point st => build_named_station ToString point = Ok st) points sts.
Proof.
  induction points as [| point rest IH]; intros sts H; simpl in H.
  - injection H as <-. constructor.
  - destruct (build_named_station ToString point) as [st | e] eqn:Hst; simpl in H;
      [| discriminate].
    destruct (build_named_stations ToString rest) as [sts' | e]; simpl in H;
      [| discriminate].
    injection H as <-. constructor; [exact Hst | apply IH; reflexivity].
Qed.

(** A point whose coordinates are missing or malformed text does not
    fail the search: whenever every point is an object, its
    [ref.coords] is absent or text, and its identifier can be formed
    (it has a truthy [ref.id] or [stateless], or its name and locality
    can be converted to text), the stations are built, one per point in
    the provider's order. *)
Theorem stations_built_for_all_points (points : list json) :
  Forall (fun point =>
            point <> JNull /\
            (truthy (get_opt (get_opt (Some point) "ref") "coords") = false \/
             exists text,
               get_opt (get_opt (Some point) "ref") "coords" = Some (JStr text)) /\
            generated_id_raises point (get_opt (Some point) "ref") = false)
    points ->
  exists sts : list named_station,
    build_named_stations ToString points = Ok sts /\
    Forall2 (fun point st => build_named_station ToString point = Ok st) points sts.
Proof.
  intros Hall.
  assert (Hex : exists sts, build_named_stations ToString points = Ok sts).
  { induction Hall as [| point rest (Hnn & Hcoords & Hid) Hrest IH];
      [exists []; reflexivity |].
    destruct IH as [sts Hsts]. simpl. rewrite Hsts.
    assert (Hone : exists st, build_named_station ToString point = Ok st).
    { unfold build_named_station.
      destruct (get point "ref") as [ref | e] eqn:Href;
        [| destruct point; try congruence; discriminate].
      rewrite <- (get_get_opt _ _ _ Href) in Hcoords, Hid. cbn [bind].
      destruct (extractCoords_total_on_text ref Hcoords) as [r Hr].
      rewrite Hr. cbn [bind]. rewrite Hid. eexists. reflexivity. }
    destruct Hone as [st Hst]. rewrite Hst. cbn [bind]. eexists. reflexivity. }
  destruct Hex as [sts Hsts]. exists sts.
  split; [exact Hsts | apply build_named_stations_each; exact Hsts].
Qed.

End StationFacts.

Lemma stations_query_is_trimmed_witness :
  stations_handler ToString_sample (fun _ => "[]") (fun _ => Ok (JArr []))
    redis_ready (Some " Bo ") (Ok payload_one_point)
  = (Fail 400 None (JStr "Suchbegriff fehlt oder ist zu kurz (mind. 3 Zeichen)."),
     redis_ready) /\
  stations_handler ToString_sample (fun _ => "[]") (fun _ => Ok (JArr []))
    redis_ready (Some "  Boz ") (Ok payload_one_point)
  = stations_handler ToString_sample (fun _ => "[]") (fun _ => Ok (JArr []))
      redis_ready (Some (trim "  Boz ")) (Ok payload_one_point).
Proof.
  split.
  - apply (proj1 (stations_query_is_trimmed ToString_sample (fun _ => "[]")
                    (fun _ => Ok (JArr [])) redis_ready " Bo " (Ok payload_one_point))).
    vm_compute. lia.
  - apply (proj2 (stations_query_is_trimmed ToString_sample (fun _ => "[]")
                    (fun _ => Ok (JArr [])) redis_ready "  Boz " (Ok payload_one_point))).
    vm_compute. lia.
Defined.

Lemma named_station_fields_present_witness :
  truthy_json (station_id station_bozen) = true /\
  exists rest : string, station_id station_bozen = JStr ("gen_" ++ rest).
Proof.
  destruct (named_station_fields_present ToString_sample point_bozen station_bozen)
    as (Hid & _ & _ & _ & Hgen); [vm_compute; reflexivity |].
  split; [exact Hid | apply Hgen; reflexivity].
Defined.

Lemma stations_built_for_all_points_witness :
  exists sts : list named_station,
    build_named_stations ToString_sample
      [point_bozen; JObj [("name", JStr "Meran"); ("ref", JObj [("coords", JStr "x")])]]
    = Ok sts /\
    Forall2 (fun point st => build_named_station ToString_sample point = Ok st)
      [point_bozen; JObj [("name", JStr "Meran"); ("ref", JObj [("coords", JStr "x")])]]
      sts.
Proof.
  apply (stations_built_for_all_points ToString_sample).
  apply Forall_cons;
    [split; [discriminate | split; [right; eexists; reflexivity | reflexivity]] |].
  apply Forall_cons;
    [split; [discriminate | split; [right; eexists; reflexivity | reflexivity]] |].
  apply Forall_nil.
Defined.

(** ** Parameters and order of the proximity search *)

Lemma gt_false (n : number) (q : Q) :
  isNaN n = false -> gt n q = false ->
  n = NegInf \/ exists x, n = Fin x /\ (x <= q)%Q.
Proof.
  destruct n as [| | x |]; simpl; try discriminate; intros _ H.
  - left. reflexivity.
  - right. exists x. split; [reflexivity |].
    apply negb_false_iff in H. apply Qle_bool_iff. exact H.
Qed.

Lemma lt_false (n : number) (q : Q) :
  isNaN n = false -> lt n q = false ->
  n = PosInf \/ exists x, n = Fin x /\ (q <= x)%Q.
Proof.
  destruct n as [| | x |]; simpl; try discriminate; intros _ H.
  - right. exists x. split; [reflexivity |].
    apply negb_false_iff in H. apply Qle_bool_iff. exact H.
  - left. reflexivity.
Qed.

(** The proximity handler goes on to the cache and the provider only
    with a latitude and a longitude that are finite numbers within
    -90..90 and -180..180 and with a radius greater than zero; a missing
    or empty [lat] or [lon] is reported as missing before any parsing. *)
Theorem nearby_params_in_range (lat lon radius : option string) :
  (forall latitude longitude searchRadius : number,
     nearby_validate lat lon radius = ValidParams latitude longitude searchRadius ->
     (exists la lo : Q,
        latitude = Fin la /\ longitude = Fin lo /\
        (-90 <= la)%Q /\ (la <= 90)%Q /\ (-180 <= lo)%Q /\ (lo <= 180)%Q) /\
     (searchRadius = PosInf \/ exists r : Q, searchRadius = Fin r /\ (0 < r)%Q)) /\
  (truthy_text lat = None \/ truthy_text lon = None ->
   nearby_validate lat lon radius = MissingParams).
Proof.
  unfold nearby_validate. split.
  - intros latitude longitude searchRadius H.
    destruct (truthy_text lat) as [lat_text|]; [| discriminate].
    destruct (truthy_text lon) as [lon_text|]; [| discriminate].
    set (r := match radius with
              | Some radius_text => parseInt10 radius_text
              | None => Fin 1000
              end) in *.
    destruct (isNaN (parseFloat lat_text)) eqn:Hn1; [discriminate |].
    destruct (isNaN (parseFloat lon_text)) eqn:Hn2; [discriminate |].
    destruct (isNaN r) eqn:Hn3; [discriminate |].
    destruct (le_zero r) eqn:Hr; [discriminate |].
    destruct (gt (parseFloat lat_text) 90) eqn:H1; [discriminate |].
    destruct (lt (parseFloat lat_text) (-90)) eqn:H2; [discriminate |].
    destruct (gt (parseFloat lon_text) 180) eqn:H3; [discriminate |].
    destruct (lt (parseFloat lon_text) (-180)) eqn:H4; [discriminate |].
    cbn [orb] in H. injection H as <- <- <-.
    split.
    + destruct (gt_false _ _ Hn1 H1) as [Ha | (la & Ha & Hla)];
        [rewrite Ha in H2; discriminate |].
      destruct (gt_false _ _ Hn2 H3) as [Ho | (lo & Ho & Hlo)];
        [rewrite Ho in H4; discriminate |].
      exists la, lo. rewrite Ha in H2. rewrite Ho in H4.
      destruct (lt_false (Fin la) (-90) eq_refl H2) as [H | (x & [= <-] & Hx)];
        [discriminate |].
      destruct (lt_false (Fin lo) (-180) eq_refl H4) as [H | (y & [= <-] & Hy)];
        [discriminate |].
      repeat split; assumption.
    + destruct r as [| | x |]; try discriminate; [| left; reflexivity].
      right. exists x. split; [reflexivity |]. simpl in Hr.
      apply Qnot_le_lt. intros Hle. apply Qle_bool_iff in Hle. congruence.
  - intros [H | H]; rewrite H; [reflexivity |].
    destruct (truthy_text lat); reflexivity.
Qed.

Lemma nearby_params_in_range_witness :
  (exists la lo : Q,
     parseFloat "46.4983" = Fin la /\ parseFloat "11.3548" = Fin lo /\
     (-90 <= la)%Q /\ (la <= 90)%Q /\ (-180 <= lo)%Q /\ (lo <= 180)%Q) /\
  nearby_validate (Some "") (Some "11.3548") None = MissingParams.
Proof.
  split.
  - apply (proj1 (nearby_params_in_range (Some "46.4983") (Some "11.3548") None)
             (parseFloat "46.4983") (parseFloat "11.3548") (Fin 1000)).
    vm_compute. reflexivity.
  - apply (proj2 (nearby_params_in_range (Some "") (Some "11.3548") None)).
    left. reflexivity.
Defined.

Example nearby_validate_examples :
  nearby_validate (Some "91") (Some "11.35") None = InvalidParams /\
  nearby_validate (Some "Infinity") (Some "11.35") None = InvalidParams /\
  nearby_validate (Some "46.5") (Some "11.35") (Some "0") = InvalidParams /\
  nearby_validate (Some "46.5") (Some "11.35") (Some "abc") = InvalidParams /\
  nearby_validate (Some "46.5") (Some "11.35") (Some "500m")
  = ValidParams (Fin (93 # 2)) (Fin (227 # 20)) (Fin 500).
Proof. repeat split; reflexivity. Qed.

Section NearbyOrderFacts.

Variable ToNumber_other : json -> number.


End NearbyOrderFacts.


(** ** Cache keys of the route search *)

Lemma append_assoc (a b c : string) : ((a ++ b) ++ c = a ++ (b ++ c))%string.
Proof. induction a as [| x a IH]; simpl; [reflexivity | rewrite IH; reflexivity]. Qed.

Lemma truthy_text_append (a b : string) :
  a <> EmptyString -> truthy_text (Some (a ++ b)) = Some (a ++ b).
Proof. intros Ha. destruct a; [congruence | reflexivity]. Qed.

Section RouteKeyFacts.

Variable new_Date : string -> Date.
Variable JSON_stringify : list route -> string.
Variable JSON_parse : string -> result json.

(** The cache key joins [from] and [to] with a colon and nothing marks
    where one ends, so the route from [a:b] to [d] and the route from
    [a] to [b:d] use the same key: the two queries always leave the
    handler with the same key, and when that key is in the cache both
    get the same cached answer, whatever the provider would say to
    either. *)
Theorem route_cache_key_is_shared (c : RedisClient) (a b d : string)
  (fetch1 fetch2 : result json) :
  a <> EmptyString -> d <> EmptyString ->
  (route_handler new_Date JSON_stringify JSON_parse c
     (Some (a ++ ":" ++ b)) (Some d) fetch1
   = route_handler new_Date JSON_stringify JSON_parse c
       (Some a) (Some (b ++ ":" ++ d)) fetch1) /\
  (cache_hit (getFromCache c ("transport:route:" ++ a ++ ":" ++ b ++ ":" ++ d))
   <> None ->
   route_handler new_Date JSON_stringify JSON_parse c
     (Some (a ++ ":" ++ b)) (Some d) fetch1
   = route_handler new_Date JSON_stringify JSON_parse c
       (Some a) (Some (b ++ ":" ++ d)) fetch2).
Proof.
  intros Ha Hd.
  assert (Hkey : forall fetch,
    route_handler new_Date JSON_stringify JSON_parse c
      (Some (a ++ ":" ++ b)) (Some d) fetch
    = query JSON_stringify JSON_parse (route_process new_Date) route_catch 300 c
        ("transport:route:" ++ a ++ ":" ++ b ++ ":" ++ d) fetch).
  { intros fetch. unfold route_handler.
    rewrite (truthy_text_append a (":" ++ b) Ha).
    assert (Htd : truthy_text (Some d) = Some d) by (destruct d; [congruence | reflexivity]).
    rewrite Htd. rewrite (append_assoc a (":" ++ b) (":" ++ d)).
    rewrite (append_assoc ":" b (":" ++ d)). reflexivity. }
  assert (Hkey' : forall fetch,
    route_handler new_Date JSON_stringify JSON_parse c
      (Some a) (Some (b ++ ":" ++ d)) fetch
    = query JSON_stringify JSON_parse (route_process new_Date) route_catch 300 c
        ("transport:route:" ++ a ++ ":" ++ b ++ ":" ++ d) fetch).
  { intros fetch. unfold route_handler.
    assert (Hta : truthy_text (Some a) = Some a) by (destruct a; [congruence | reflexivity]).
    assert (Htb : truthy_text (Some (b ++ ":" ++ d)) = Some (b ++ ":" ++ d))
      by (destruct b; reflexivity).
    rewrite Hta, Htb. reflexivity. }
  split.
  - rewrite Hkey, Hkey'. reflexivity.
  - intros Hhit. rewrite Hkey, Hkey'. unfold query.
    destruct (cache_hit (getFromCache c _)) as [text|]; [| congruence].
    reflexivity.
Qed.

End RouteKeyFacts.

Lemma route_cache_key_is_shared_witness :
  route_handler Date_iso_local (fun _ => "[]") (fun _ => Ok (JArr []))
    (mkRedis true false false [("transport:route:Bozen:Meran:Brixen", ("[]", 300%Z))])
    (Some ("Bozen" ++ ":" ++ "Meran")) (Some "Brixen") (Ok payload_no_trips)
  = route_handler Date_iso_local (fun _ => "[]") (fun _ => Ok (JArr []))
      (mkRedis true false false [("transport:route:Bozen:Meran:Brixen", ("[]", 300%Z))])
      (Some "Bozen") (Some ("Meran" ++ ":" ++ "Brixen")) (Throw OtherError).
Proof.
  apply (proj2 (route_cache_key_is_shared Date_iso_local (fun _ => "[]")
                  (fun _ => Ok (JArr []))
                  (mkRedis true false false
                     [("transport:route:Bozen:Meran:Brixen", ("[]", 300%Z))])
                  "Bozen" "Meran" "Brixen" (Ok payload_no_trips) (Throw OtherError)
                  ltac:(discriminate) ltac:(discriminate))).
  vm_compute. discriminate.
Defined.
